(** * SE_terminal: the validate / execute / record pipeline

    A shallow embedding of [safety_filter.py], [command_executor.py] and the
    [_execute_command] method of [main.py], followed by the properties of
    the specification that concern them.

    Python [str] values are modelled by [string]; a character stands for the
    code point with the same number, so the model covers the code points
    below 256.  Python exceptions are values of [exn], and every call into
    the operating system goes through the [OS] interface. *)

From Stdlib Require Import Bool List ZArith NArith Lia Ascii String DecimalString.
Import ListNotations.
Open Scope string_scope.
Open Scope bool_scope.

(* ================================================================== *)
(** * Part I: definitions *)
(* ================================================================== *)

(** ** Python string primitives *)

Module PyStr.

Definition ord (a : ascii) : N := N_of_ascii a.

Definition between (lo hi n : N) : bool := ((lo <=? n) && (n <=? hi))%N.

(** [str.isspace] on one character; the same set is used by [str.strip]
    and by the regular-expression class [\s]. *)
Definition isspace (a : ascii) : bool :=
  let n := ord a in
  between 9 13 n || between 28 32 n || (n =? 133)%N || (n =? 160)%N.

(** [str.isalnum] on one character or the underscore: the class [\w]. *)
Definition isword (a : ascii) : bool :=
  let n := ord a in
  between 48 57 n || between 65 90 n || between 97 122 n || (n =? 95)%N
  || (n =? 170)%N || between 178 179 n || (n =? 181)%N || between 185 186 n
  || between 188 190 n || between 192 214 n || between 216 246 n
  || between 248 255 n.

Definition lower (a : ascii) : ascii :=
  let n := ord a in
  if between 65 90 n || between 192 214 n || between 216 222 n
  then ascii_of_N (n + 32) else a.

Definition upper (a : ascii) : ascii :=
  let n := ord a in
  if between 97 122 n || between 224 246 n || between 248 254 n
  then ascii_of_N (n - 32) else a.

Fixpoint lower_str (s : string) : string :=
  match s with
  | "" => ""
  | String a s' => String (lower a) (lower_str s')
  end.

(** Truth value of a string: [not s] holds exactly for the empty one. *)
Definition is_empty (s : string) : bool :=
  match s with "" => true | _ => false end.

Fixpoint lstrip (s : string) : string :=
  match s with
  | "" => ""
  | String a s' => if isspace a then lstrip s' else s
  end.

Fixpoint rstrip (s : string) : string :=
  match s with
  | "" => ""
  | String a s' =>
      let r := rstrip s' in
      if is_empty r && isspace a then "" else String a r
  end.

(** [s.strip()] *)
Definition strip (s : string) : string := rstrip (lstrip s).

(** [s.startswith(p)] *)
Definition startswith (p s : string) : bool := String.prefix p s.

(** [needle in hay] *)
Fixpoint contains (needle hay : string) : bool :=
  String.prefix needle hay
  || match hay with
     | "" => false
     | String _ hay' => contains needle hay'
     end.

(** Every character of [s] satisfies [p]. *)
Fixpoint all_chars (p : ascii -> bool) (s : string) : bool :=
  match s with
  | "" => true
  | String a s' => p a && all_chars p s'
  end.

(** [s] begins with a character that is not white space. *)
Definition starts_solid (s : string) : bool :=
  match s with
  | "" => false
  | String a _ => negb (isspace a)
  end.

(** [s] ends with a character that is not white space. *)
Fixpoint ends_solid (s : string) : bool :=
  match s with
  | "" => false
  | String a "" => negb (isspace a)
  | String _ s' => ends_solid s'
  end.

(** The line feed, written [\n] in the source. *)
Definition LF : string := String "010"%char "".

(** [str(n)] for an integer. *)
Definition str_of_int (n : Z) : string := NilZero.string_of_int (Z.to_int n).

(** [os.path.basename]: what follows the last slash. *)
Fixpoint basename (p : string) : string :=
  match p with
  | "" => ""
  | String a p' =>
      if contains "/" p then basename p' else p
  end.

End PyStr.

(** ** The fragment of Python's [re] that the filter uses *)

Module Re.
Import PyStr.

(** One-character matchers. *)
Inductive charset : Type :=
| CsLit (a : ascii)          (* a literal or escaped character *)
| CsSpace                    (* \s *)
| CsWord                     (* \w *)
| CsRange (lo hi : ascii)    (* [lo-hi] *)
| CsDot.                     (* .  (everything but a line feed) *)

Definition cs_mem (cs : charset) (a : ascii) : bool :=
  match cs with
  | CsLit x => Ascii.eqb a x
  | CsSpace => isspace a
  | CsWord => isword a
  | CsRange lo hi => between (ord lo) (ord hi) (ord a)
  | CsDot => negb (Ascii.eqb a "010"%char)
  end.

(** With [re.IGNORECASE] the subject character is lowered and the set is
    taken to contain both cases of each of its members. *)
Definition sym_match (ignorecase : bool) (cs : charset) (a : ascii) : bool :=
  if ignorecase
  then cs_mem cs (lower a) || cs_mem cs (upper (lower a))
  else cs_mem cs a.

Inductive regex : Type :=
| Void
| Eps
| Sym (cs : charset)
| Cat (r1 r2 : regex)
| Alt (r1 r2 : regex)
| Star (r : regex).

Infix "@@" := Cat (at level 60, right associativity).

(** A run of literal characters. *)
Fixpoint lit (s : string) : regex :=
  match s with
  | "" => Eps
  | String a s' => Sym (CsLit a) @@ lit s'
  end.

Definition plus (r : regex) : regex := r @@ Star r.

(** [\s+], [\s*], [\w+], [.*] *)
Definition ws1 : regex := plus (Sym CsSpace).
Definition ws0 : regex := Star (Sym CsSpace).
Definition word1 : regex := plus (Sym CsWord).
Definition dots : regex := Star (Sym CsDot).

Fixpoint nullable (r : regex) : bool :=
  match r with
  | Void => false
  | Eps => true
  | Sym _ => false
  | Cat r1 r2 => nullable r1 && nullable r2
  | Alt r1 r2 => nullable r1 || nullable r2
  | Star _ => true
  end.

(** What is left of [r] after reading the character [a]. *)
Fixpoint deriv (ic : bool) (a : ascii) (r : regex) : regex :=
  match r with
  | Void => Void
  | Eps => Void
  | Sym cs => if sym_match ic cs a then Eps else Void
  | Cat r1 r2 =>
      if nullable r1
      then Alt (Cat (deriv ic a r1) r2) (deriv ic a r2)
      else Cat (deriv ic a r1) r2
  | Alt r1 r2 => Alt (deriv ic a r1) (deriv ic a r2)
  | Star r1 => Cat (deriv ic a r1) (Star r1)
  end.

(** Does some prefix of [s] match [r]? *)
Fixpoint match_prefix (ic : bool) (r : regex) (s : string) : bool :=
  nullable r
  || match s with
     | "" => false
     | String a s' => match_prefix ic (deriv ic a r) s'
     end.

(** [re.search(r, s, flags)] as a truth value: a match starts at some
    position of [s]. *)
Fixpoint search (ic : bool) (r : regex) (s : string) : bool :=
  match_prefix ic r s
  || match s with
     | "" => false
     | String _ s' => search ic r s'
     end.

(** The strings a regular expression matches. *)
Inductive matches (ic : bool) : regex -> string -> Prop :=
| M_Eps : matches ic Eps ""
| M_Sym cs a : sym_match ic cs a = true -> matches ic (Sym cs) (String a "")
| M_Cat r1 r2 s1 s2 :
    matches ic r1 s1 -> matches ic r2 s2 -> matches ic (Cat r1 r2) (s1 ++ s2)
| M_AltL r1 r2 s : matches ic r1 s -> matches ic (Alt r1 r2) s
| M_AltR r1 r2 s : matches ic r2 s -> matches ic (Alt r1 r2) s
| M_Star0 r : matches ic (Star r) ""
| M_StarS r s1 s2 :
    matches ic r s1 -> matches ic (Star r) s2 -> matches ic (Star r) (s1 ++ s2).

(** [re.split(r'[...]+', s)] for a character class given as a predicate:
    the pieces between maximal runs of separator characters.  [in_run]
    tells that the previous character was a separator. *)
Fixpoint split_runs (sep : ascii -> bool) (in_run : bool) (s : string)
  : list string :=
  match s with
  | "" => [""]
  | String a s' =>
      if sep a then
        if in_run then split_runs sep true s'
        else "" :: split_runs sep true s'
      else
        match split_runs sep false s' with
        | p :: ps => String a p :: ps
        | [] => [String a ""]
        end
  end.

Definition split_class (sep : ascii -> bool) (s : string) : list string :=
  split_runs sep false s.

End Re.

(** ** safety_filter.py *)

Module SafetyFilter.
Import PyStr Re.

Definition DANGEROUS_COMMANDS : list string :=
  [ "rm -rf /";
    "rm -rf /*";
    "mkfs";
    "dd if=";
    "> /dev/sda";
    "mv /home";
    "chmod -R 777 /";
    ":(){:|:&};:" ].

Definition DANGEROUS_PATTERNS : list regex :=
  [ lit "rm" @@ ws1 @@ lit "-rf" @@ ws1 @@ lit "/";            (* rm\s+-rf\s+/ *)
    lit "rm" @@ ws1 @@ lit "-rf" @@ ws1 @@ lit "/" @@ word1;   (* rm\s+-rf\s+/\w+ *)
    lit "rm" @@ ws1 @@ lit "-rf" @@ ws1 @@ lit "*";            (* rm\s+-rf\s+\* *)
    lit "mkfs.";                                               (* mkfs\. *)
    lit "dd" @@ ws1 @@ lit "if=";                              (* dd\s+if= *)
    lit ">" @@ ws0 @@ lit "/dev/sd" @@ Sym (CsRange "a" "z");  (* >\s*/dev/sd[a-z] *)
    lit "chmod" @@ ws1 @@ lit "-R" @@ ws1 @@ lit "777" @@ ws1 @@ lit "/";
                                                               (* chmod\s+-R\s+777\s+/ *)
    lit "shutdown";
    lit "reboot";
    lit "init" @@ ws1 @@ lit "0";                              (* init\s+0 *)
    lit "init" @@ ws1 @@ lit "6";                              (* init\s+6 *)
    lit "halt";
    lit "poweroff";
    lit "chown" @@ ws1 @@ lit "-R";                            (* chown\s+-R *)
    lit "mv" @@ ws1 @@ lit "/home";                            (* mv\s+/home *)
    lit "mv" @@ ws1 @@ lit "/etc";
    lit "mv" @@ ws1 @@ lit "/usr";
    lit "mv" @@ ws1 @@ lit "/var";
    lit "mv" @@ ws1 @@ lit "/bin";
    lit "mv" @@ ws1 @@ lit "/sbin";
    lit "rm" @@ ws1 @@ lit "/etc/";                            (* rm\s+/etc/ *)
    lit "rm" @@ ws1 @@ lit "-rf" @@ ws1 @@ lit "~/";           (* rm\s+-rf\s+~/ *)
    lit ":(){" @@ dots @@ lit "}" ].                           (* :\(\)\{.*\} *)

Definition critical_dirs : list string :=
  [ "/bin"; "/sbin"; "/usr"; "/lib"; "/lib64"; "/boot"; "/sys"; "/proc" ].

(** First loop of [is_safe]: the first literal fragment found in the
    command, if any. *)
Definition dangerous_command_in (command : string) : option string :=
  find (fun dangerous_cmd => contains dangerous_cmd command) DANGEROUS_COMMANDS.

(** Second loop: does any pattern match, ignoring case? *)
Definition matches_dangerous_pattern (command : string) : bool :=
  existsb (fun pattern => search true pattern command) DANGEROUS_PATTERNS.

(** Third loop; [re.escape] leaves these paths as they are.  The result is
    the message of the first directory that triggers. *)
Fixpoint critical_dir_check (dirs : list string) (command : string)
  : option string :=
  match dirs with
  | [] => None
  | dir_path :: rest =>
      if search false (lit "rm" @@ ws1 @@ dots @@ lit dir_path) command then
        Some ("Blocked: Attempting to remove critical system directory " ++ dir_path)
      else if search false (lit "mv" @@ ws1 @@ lit dir_path) command then
        Some ("Blocked: Attempting to move critical system directory " ++ dir_path)
      else critical_dir_check rest command
  end.

Definition is_safe (command : string) : bool * string :=
  if is_empty command || is_empty (strip command) then
    (false, "Empty command")
  else
    let command := strip command in
    match dangerous_command_in command with
    | Some dangerous_cmd =>
        (false, "Blocked: Command contains dangerous operation '"
                  ++ dangerous_cmd ++ "'")
    | None =>
        if matches_dangerous_pattern command then
          (false, "Blocked: Command matches dangerous pattern")
        else
          match critical_dir_check critical_dirs command with
          | Some message => (false, message)
          | None =>
              if startswith "sudo " command || contains " sudo " command then
                (false, "Blocked: sudo commands require manual execution for security")
              else if startswith "su " command || contains " su " command then
                (false, "Blocked: su commands require manual execution for security")
              else
                (true, "Command passed safety checks")
          end
    end.

(** The class [[;&|]] of the split in [sanitize_command]. *)
Definition is_chain_char (a : ascii) : bool :=
  Ascii.eqb a ";" || Ascii.eqb a "&" || Ascii.eqb a "|".

Definition not_chain_char (a : ascii) : bool := negb (is_chain_char a).

(** The guard of [sanitize_command]. *)
Definition has_chaining (command : string) : bool :=
  contains ";" command || contains "&&" command || contains "||" command.

Definition sanitize_command (command : string) : string :=
  let command := strip command in
  if has_chaining command then
    strip (hd "" (split_class is_chain_char command))
  else command.

End SafetyFilter.

(** ** The wording of the specification *)

Module Wording.
Import PyStr SafetyFilter.

(** Two command strings that differ at most in the case of their letters. *)
Definition case_variant (c c' : string) : Prop := lower_str c = lower_str c'.

(** A recursive force-delete aimed at the root: [rm], white space, [-rf],
    white space and a path that begins with [/], in any case and anywhere
    in the command. *)
Definition root_force_delete_shape (c : string) : Prop :=
  exists pre rm s1 rf s2 post,
    c = pre ++ rm ++ s1 ++ rf ++ s2 ++ "/" ++ post /\
    lower_str rm = "rm" /\ lower_str rf = "-rf" /\
    is_empty s1 = false /\ all_chars isspace s1 = true /\
    is_empty s2 = false /\ all_chars isspace s2 = true.

(** The words whose pattern is a bare literal. *)
Definition power_words : list string :=
  [ "shutdown"; "reboot"; "halt"; "poweroff" ].

(** The text that precedes the first chaining operator [;], [&&] or [||]:
    the first sub-command in the words of the specification. *)
Fixpoint before_first_operator (s : string) : string :=
  match s with
  | "" => ""
  | String a s' =>
      if startswith ";" s || startswith "&&" s || startswith "||" s
      then "" else String a (before_first_operator s')
  end.

(** The sanitizer as the specification words it. *)
Definition sanitize_as_worded (command : string) : string :=
  let command := strip command in
  if has_chaining command then strip (before_first_operator command)
  else command.

End Wording.

(** ** Exceptions and the operating system *)

Module Py.

(** The exceptions that can reach the code modelled here; all of them are
    subclasses of [Exception].  [OtherException] carries [str(e)]. *)
Inductive exn : Type :=
| TimeoutExpired
| OtherException (description : string).

Inductive result (A : Type) : Type :=
| Return (a : A)
| Raise (e : exn).

Arguments Return {A} a.
Arguments Raise {A} e.

(** [subprocess.CompletedProcess] *)
Record CompletedProcess : Type := {
  returncode : Z;
  cp_stdout : string;
  cp_stderr : string
}.

(** What the program asks of its environment.  [World] is the state of
    everything outside the process: file system, clock, other programs. *)
Class OS : Type := {
  World : Type;
  (* subprocess.run(command, shell=True, cwd=cwd, timeout=timeout, ...) *)
  subprocess_run : string -> string -> Z -> World -> result CompletedProcess * World;
  os_path_expanduser : string -> World -> result string;
  os_path_exists : string -> World -> result bool;
  os_path_isdir : string -> World -> result bool;
  os_makedirs : string -> World -> result unit * World;
  (* datetime.now(), already formatted *)
  datetime_now : World -> string
}.

End Py.

(** ** command_executor.py, the session log, the view and main.py *)

Module Terminal.
Import PyStr Py.

Record CommandExecutor : Type := {
  working_directory : string
}.

(** One record of the session log, with the fields the specification gives
    to a Log Entry. *)
Record LogEntry : Type := {
  timestamp : string;
  natural_language : string;
  generated_command : string;
  stdout : string;
  stderr : string;
  error : option string;
  blocked : bool
}.

Record SessionLogger : Type := {
  history : list LogEntry
}.

(** terminal_gui.py.  [output_area] is [None] until the window exists; the
    text widget is the list of (text, tag) insertions.  [prompt_label] is
    [None] as long as [create_window] has not created that attribute. *)
Record TerminalGUI : Type := {
  output_area : option (list (string * string));
  current_directory : string;
  prompt_label : option string
}.

(** Ghost trace of the calls that concern the executor: every entry into
    [CommandExecutor.execute] and every process actually spawned. *)
Inductive call : Type :=
| CallExecute (command : string) (timeout : Z)
| CallSpawn (command cwd : string) (timeout : Z).

Section WithOS.
Context {os : OS}.

(** The state of an [AITerminal] object and of the world around it. *)
Record Machine : Type := {
  world : World;
  command_executor : CommandExecutor;
  session_logger : SessionLogger;
  gui : TerminalGUI;
  calls : list call
}.

(** Computations that read and write the machine and may raise. *)
Definition M (A : Type) : Type := Machine -> result A * Machine.

Definition ret {A} (a : A) : M A := fun m => (Return a, m).

Definition bind {A B} (c : M A) (k : A -> M B) : M B :=
  fun m =>
    match c m with
    | (Return a, m') => k a m'
    | (Raise e, m') => (Raise e, m')
    end.

Definition raise {A} (e : exn) : M A := fun m => (Raise e, m).

(** [try: body  except ... as e: handler e] *)
Definition try_except {A} (body : M A) (handler : exn -> M A) : M A :=
  fun m =>
    match body m with
    | (Return a, m') => (Return a, m')
    | (Raise e, m') => handler e m'
    end.

Definition gets {A} (f : Machine -> A) : M A := fun m => (Return (f m), m).

Definition modify (f : Machine -> Machine) : M unit := fun m => (Return tt, f m).

(** A query of the world that may raise. *)
Definition ask {A} (q : World -> result A) : M A := fun m => (q (world m), m).

Definition when_ (b : bool) (c : M unit) : M unit := if b then c else ret tt.

End WithOS.

Notation "x <- c ;; k" := (bind c (fun x => k))
  (at level 61, c at next level, right associativity).
Notation "c ;; k" := (bind c (fun _ => k))
  (at level 61, right associativity).

Section Operations.
Context {os : OS}.

Definition set_world (w : World) (m : Machine) : Machine :=
  {| world := w; command_executor := command_executor m;
     session_logger := session_logger m; gui := gui m; calls := calls m |}.

Definition set_executor (ex : CommandExecutor) (m : Machine) : Machine :=
  {| world := world m; command_executor := ex;
     session_logger := session_logger m; gui := gui m; calls := calls m |}.

Definition set_logger (l : SessionLogger) (m : Machine) : Machine :=
  {| world := world m; command_executor := command_executor m;
     session_logger := l; gui := gui m; calls := calls m |}.

Definition set_gui (g : TerminalGUI) (m : Machine) : Machine :=
  {| world := world m; command_executor := command_executor m;
     session_logger := session_logger m; gui := g; calls := calls m |}.

Definition note (c : call) : M unit :=
  modify (fun m =>
    {| world := world m; command_executor := command_executor m;
       session_logger := session_logger m; gui := gui m;
       calls := (calls m ++ [c])%list |}).

(** *** CommandExecutor *)

(** [CommandExecutor.__init__], run against the world alone. *)
Definition CommandExecutor_init (working_directory : option string) (w : World)
  : result CommandExecutor * World :=
  let chosen :=
    match working_directory with
    | None => os_path_expanduser "~" w
    | Some d => Return d
    end in
  match chosen with
  | Raise e => (Raise e, w)
  | Return d =>
      match os_path_exists d w with
      | Raise e => (Raise e, w)
      | Return true => (Return {| working_directory := d |}, w)
      | Return false =>
          match os_makedirs d w with
          | (Raise e, w') => (Raise e, w')
          | (Return _, w') => (Return {| working_directory := d |}, w')
          end
      end
  end.

(** The call of [subprocess.run] inside [execute]. *)
Definition run_subprocess (command : string) (timeout : Z)
  : M CompletedProcess :=
  fun m =>
    let cwd := working_directory (command_executor m) in
    let '(r, w') := subprocess_run command cwd timeout (world m) in
    (r, set_world w' {| world := world m; command_executor := command_executor m;
                        session_logger := session_logger m; gui := gui m;
                        calls := (calls m ++ [CallSpawn command cwd timeout])%list |}).

Definition execute (command : string) (timeout : Z)
  : M (bool * string * string) :=
  note (CallExecute command timeout) ;;
  if is_empty command || is_empty (strip command) then
    ret (false, "", "Empty command")
  else
    try_except
      (result <- run_subprocess command timeout ;;
       let stdout := cp_stdout result in
       let stderr := cp_stderr result in
       let success := (returncode result =? 0)%Z in
       ret (success, stdout, stderr))
      (fun e =>
         match e with
         | TimeoutExpired =>
             ret (false, "",
                  "Command timed out after " ++ str_of_int timeout ++ " seconds")
         | OtherException description =>
             ret (false, "", "Error executing command: " ++ description)
         end).

Definition get_working_directory : M string :=
  gets (fun m => working_directory (command_executor m)).

Definition set_working_directory (directory : string) : M bool :=
  try_except
    (directory <- ask (os_path_expanduser directory) ;;
     present <- ask (os_path_exists directory) ;;
     if negb present then ret false
     else
       isdir <- ask (os_path_isdir directory) ;;
       if negb isdir then ret false
       else
         modify (set_executor {| working_directory := directory |}) ;;
         ret true)
    (fun _ => ret false).

(** *** TerminalGUI *)

(** The machine after [display_output]: nothing happens without a window. *)
Definition show (text tag : string) (m : Machine) : Machine :=
  match output_area (gui m) with
  | None => m
  | Some shown =>
      set_gui {| output_area := Some (shown ++ [(text, tag)])%list;
                 current_directory := current_directory (gui m);
                 prompt_label := prompt_label (gui m) |} m
  end.

Definition display_output (text tag : string) : M unit :=
  modify (show text tag).

Definition display_error (error : string) : M unit :=
  display_output ("Error: " ++ error ++ LF) "error".

Definition display_info (info : string) : M unit :=
  display_output (info ++ LF) "info".

Definition update_prompt (directory : string) : M unit :=
  modify (fun m =>
    set_gui {| output_area := output_area (gui m);
               current_directory := directory;
               prompt_label := prompt_label (gui m) |} m) ;;
  label <- gets (fun m => prompt_label (gui m)) ;;
  match label with
  | None =>
      raise (OtherException
               "'TerminalGUI' object has no attribute 'prompt_label'")
  | Some _ =>
      modify (fun m =>
        set_gui {| output_area := output_area (gui m);
                   current_directory := current_directory (gui m);
                   prompt_label := Some (directory ++ " $ ") |} m)
  end.

(** *** SessionLogger *)

(** Modelled from the spec: [SessionLogger.log_interaction] of
    session_logger.py, which is not among the sources.  Following the
    Ledger's [append] and the fields of a Log Entry, it always succeeds and
    adds exactly one entry, stamped with the current time, at the end of the
    history.  The argument order is that of its callers in main.py. *)
Definition log_interaction (natural_language generated_command stdout stderr : string)
    (error : option string) (blocked : bool) : M unit :=
  modify (fun m =>
    set_logger
      {| history :=
           (history (session_logger m) ++
           [ {| timestamp := datetime_now (world m);
                natural_language := natural_language;
                generated_command := generated_command;
                stdout := stdout;
                stderr := stderr;
                error := error;
                blocked := blocked |} ])%list |} m).

(** *** AITerminal *)

Definition _execute_command (natural_language command : string) : M unit :=
  let '(is_safe, safety_message) := SafetyFilter.is_safe command in
  if negb is_safe then
    display_error safety_message ;;
    log_interaction natural_language command "" "" (Some safety_message) true
  else
    display_info "Executing..." ;;
    r <- execute command 30 ;;
    let '(success, stdout, stderr) := r in
    when_ (negb (is_empty stdout)) (display_output (stdout ++ LF) "normal") ;;
    when_ (negb (is_empty stderr)) (display_error stderr) ;;
    when_ (is_empty stdout && is_empty stderr)
      (if success
       then display_info "Command executed successfully (no output)"
       else display_error "Command failed (no output)") ;;
    log_interaction natural_language command stdout stderr None false ;;
    when_ (startswith "cd " (strip command))
      (wd <- get_working_directory ;;
       let current_dir := basename wd in
       let current_dir := if is_empty current_dir then "/" else current_dir in
       update_prompt (if negb (current_dir =? "/")
                      then "~/" ++ current_dir else current_dir)).

(** Everything but the view is the same in [m] and [m']. *)
Definition same_backend (m m' : Machine) : Prop :=
  world m' = world m /\
  command_executor m' = command_executor m /\
  session_logger m' = session_logger m /\
  calls m' = calls m.

(** A computation that returns and touches the view at most. *)
Definition quiet (c : M unit) : Prop :=
  forall m, exists m', c m = (Return tt, m') /\ same_backend m m'.

(** The stored working directory names an existing directory of the world. *)
Definition wd_is_directory (w : World) (ex : CommandExecutor) : Prop :=
  os_path_exists (working_directory ex) w = Return true /\
  os_path_isdir (working_directory ex) w = Return true.

End Operations.

(** *** A small world to run the definitions in

    The state of the world tells whether the directory [/tmp/x] exists.
    [/home/u] is a directory and [/etc/hostname] a regular file; the command
    [rmdir /tmp/x] removes the directory and every other command succeeds
    without output. *)
Definition sample_os : OS := {|
  World := bool;
  subprocess_run := fun command cwd timeout w =>
    (Return {| returncode := 0; cp_stdout := ""; cp_stderr := "" |},
     if command =? "rmdir /tmp/x" then false else w);
  os_path_expanduser := fun path w => Return path;
  os_path_exists := fun path w =>
    Return ((path =? "/home/u") || (path =? "/etc/hostname")
            || (w && (path =? "/tmp/x")));
  os_path_isdir := fun path w =>
    Return ((path =? "/home/u") || (w && (path =? "/tmp/x")));
  os_makedirs := fun path w => (Return tt, w);
  datetime_now := fun w => "2024-01-01 00:00:00"
|}.

(** A freshly started terminal in the small world, window created. *)
Definition sample_machine : @Machine sample_os := {|
  world := (true : @World sample_os);
  command_executor := {| working_directory := "/home/u" |};
  session_logger := {| history := [] |};
  gui := {| output_area := Some []; current_directory := "~";
            prompt_label := Some "~ $ " |};
  calls := []
|}.

End Terminal.

(** ** More string primitives *)

Module PyStrMore.
Import PyStr.

(** A string of white space only, the empty one included. *)
Definition blank (s : string) : bool := all_chars isspace s.

Definition not_LF (a : ascii) : bool := negb (Ascii.eqb a "010"%char).

Definition not_backtick (a : ascii) : bool := negb (Ascii.eqb a "`"%char).

(** [s] holds no line feed. *)
Definition one_line (s : string) : bool := all_chars not_LF s.

(** [s.replace(c, '')] for a one-character [c]. *)
Fixpoint remove_char (c : ascii) (s : string) : string :=
  match s with
  | "" => ""
  | String a s' =>
      if Ascii.eqb a c then remove_char c s' else String a (remove_char c s')
  end.

(** [s.split(c)] for a one-character separator: every occurrence splits. *)
Fixpoint split_on (c : ascii) (s : string) : list string :=
  match s with
  | "" => [""]
  | String a s' =>
      if Ascii.eqb a c then "" :: split_on c s'
      else
        match split_on c s' with
        | p :: ps => String a p :: ps
        | [] => [String a ""]
        end
  end.

(** [s] without the prefix [p], if it has that prefix. *)
Fixpoint drop_prefix (p s : string) : option string :=
  match p, s with
  | "", _ => Some s
  | String a p', String b s' =>
      if Ascii.eqb a b then drop_prefix p' s' else None
  | String _ _, "" => None
  end.

(** [sep.join(parts)] *)
Definition join (sep : string) (parts : list string) : string :=
  String.concat sep parts.

End PyStrMore.

(** ** llm_handler.py: cleaning the generated command *)

Module LLMHandler.
Import PyStr PyStrMore.

(** The alternatives of the group [(?:bash|sh|shell)], in the order in
    which the matcher tries them. *)
Definition fence_tags : list string := [ "bash"; "sh"; "shell" ].

(** What is left of [s] after the first alternative that matches at its
    start, or [s] itself: the optional group.  What follows the group in
    the pattern can match the empty string, so the first alternative that
    fits is the one taken. *)
Fixpoint drop_first_tag (tags : list string) (s : string) : string :=
  match tags with
  | [] => s
  | t :: rest =>
      match drop_prefix t s with
      | Some s' => s'
      | None => drop_first_tag rest s
      end
  end.

(** [\n?] at the start of [s]. *)
Definition drop_LF (s : string) : string :=
  match drop_prefix LF s with
  | Some s' => s'
  | None => s
  end.

(** [re.sub(r'^```(?:bash|sh|shell)?\n?', '', command)]: the pattern can
    only match at the start of the string. *)
Definition strip_opening_fence (command : string) : string :=
  match drop_prefix "```" command with
  | None => command
  | Some rest => drop_LF (drop_first_tag fence_tags rest)
  end.

(** A match of [\n?```$] that begins where [s] begins: [s] is the fence,
    with or without a line feed before it, and [$] holds at the end of the
    string or before a last line feed, which is not part of the match.  The
    result is what follows the match. *)
Definition closing_match (s : string) : option string :=
  let after_fence (t : string) : option string :=
    match drop_prefix "```" t with
    | Some "" => Some ""
    | Some rest => if rest =? LF then Some LF else None
    | None => None
    end in
  match drop_prefix LF s with
  | Some t => after_fence t
  | None => after_fence s
  end.

(** [re.sub(r'\n?```$', '', command)]: the leftmost match is removed; it
    reaches the end of the string or its last line feed, so no second match
    can follow. *)
Fixpoint strip_closing_fence (command : string) : string :=
  match command with
  | "" => ""
  | String a rest =>
      match closing_match command with
      | Some tail => tail
      | None => String a (strip_closing_fence rest)
      end
  end.

Definition _clean_command (command : string) : string :=
  let command := strip_opening_fence command in
  let command := strip_closing_fence command in
  let command := remove_char "`" command in
  let command := strip command in
  let lines :=
    map strip
        (filter (fun line => negb (is_empty (strip line)))
                (split_on "010" command)) in
  match lines with
  | first :: _ => first
  | [] => command
  end.

End LLMHandler.

(** ** command_executor.py: the formatted result *)

Module ExecutorStatus.
Import PyStr PyStrMore Py Terminal.

(** Truth value of a list. *)
Definition nonempty {A} (l : list A) : bool :=
  match l with [] => false | _ => true end.

Section WithOS.
Context {os : OS}.

Definition execute_with_status (command : string) (timeout : Z) : M string :=
  r <- execute command timeout ;;
  let '(success, stdout, stderr) := r in
  let output_parts : list string := [] in
  let output_parts :=
    if negb (is_empty stdout)
    then (output_parts ++ [rstrip stdout])%list else output_parts in
  let output_parts :=
    if negb (is_empty stderr) then
      let output_parts :=
        if nonempty output_parts
        then (output_parts ++ [""])%list else output_parts in
      (output_parts ++ [("Error: " ++ rstrip stderr)%string])%list
    else output_parts in
  let output_parts :=
    if is_empty stdout && is_empty stderr then
      if success
      then (output_parts ++ ["Command executed successfully (no output)"])%list
      else (output_parts ++ ["Command failed (no output)"])%list
    else output_parts in
  ret (join LF output_parts).

(** Everything but the text of the view is the same in [m] and [m']. *)
Definition same_but_text (m m' : Machine) : Prop :=
  same_backend m m' /\ prompt_label (gui m') = prompt_label (gui m).

(** A computation that returns and at most adds text to the view. *)
Definition display_only (c : M unit) : Prop :=
  forall m, exists m', c m = (Return tt, m') /\ same_but_text m m'.

End WithOS.

End ExecutorStatus.

(** ** llm_handler.py and main.py: from the input to the pipeline *)

Module Pipeline.
Import PyStr PyStrMore Py Terminal LLMHandler.

(** The attributes of an [LLMHandler] that [generate_command] reads. *)
Record LLMHandlerState : Type := {
  model : string;
  system_prompt : string
}.

(** The remote service and the console.  [chat_completion] stands for the
    request and the reading of [response.choices[0].message.content]: it
    gives the content, or the text [str(e)] of the exception that the
    request or the reading raised. *)
Class LLMApi {os : OS} : Type := {
  chat_completion :
    LLMHandlerState -> string -> Z -> World -> (string + string) * World;
  print : string -> World -> World
}.

Section WithApi.
Context {os : OS} {api : LLMApi}.

Definition generate_command (self : LLMHandlerState)
    (natural_language : string) (timeout : Z) : M (option string) :=
  if is_empty natural_language || is_empty (strip natural_language) then
    ret None
  else
    fun m =>
      match chat_completion self natural_language timeout (world m) with
      | (inr content, w) =>
          let command := strip content in
          let command := _clean_command command in
          (Return (Some command), set_world w m)
      | (inl description, w) =>
          (Return None,
           set_world (print ("Error generating command: " ++ description) w) m)
      end.

Definition display_command (command : string) : M unit :=
  display_output ("Generated command: " ++ command ++ LF) "command".

Definition clear_screen : M unit :=
  modify (fun m =>
    match output_area (gui m) with
    | None => m
    | Some _ =>
        set_gui {| output_area := Some [];
                   current_directory := current_directory (gui m);
                   prompt_label := prompt_label (gui m) |} m
    end).

(** [str(e)].  [TimeoutExpired] is raised by [subprocess.run] alone and
    caught inside [execute]; it carries no text in this model. *)
Definition str_of_exn (e : exn) : string :=
  match e with
  | TimeoutExpired => "Command timed out"
  | OtherException description => description
  end.

(** The handlers of the built-in words that read the session log through
    session_logger.py, which is not among the sources, and the help text,
    whose box-drawing characters lie outside the strings modelled here. *)
Record Builtins : Type := {
  help_text : string;
  _handle_exit : M unit;
  _display_history : M unit;
  _display_summary : M unit
}.

Definition _display_help (bi : Builtins) : M unit :=
  display_info (help_text bi).

(** The words that [process_command] handles itself. *)
Definition is_builtin (user_input : string) : bool :=
  existsb (String.eqb (lower_str user_input))
          [ "exit"; "quit"; "help"; "clear"; "history"; "summary" ].

Definition process_command (llm_handler : LLMHandlerState) (bi : Builtins)
    (user_input : string) : M unit :=
  if existsb (String.eqb (lower_str user_input)) [ "exit"; "quit" ] then
    _handle_exit bi
  else if lower_str user_input =? "help" then _display_help bi
  else if lower_str user_input =? "clear" then clear_screen
  else if lower_str user_input =? "history" then _display_history bi
  else if lower_str user_input =? "summary" then _display_summary bi
  else if startswith "!" user_input then
    let command :=
      strip (match user_input with "" => "" | String _ rest => rest end) in
    display_command ("[Direct] " ++ command) ;;
    _execute_command user_input command
  else
    display_info "Generating command..." ;;
    try_except
      (generated_command <- generate_command llm_handler user_input 30 ;;
       match generated_command with
       | Some (String _ _ as generated_command) =>
           display_command generated_command ;;
           _execute_command user_input generated_command
       | _ =>
           display_error
             "Failed to generate command. Please try rephrasing your request." ;;
           log_interaction user_input "" "" ""
             (Some "Command generation failed") false
       end)
      (fun e =>
         let error_msg := "Error processing command: " ++ str_of_exn e in
         display_error error_msg ;;
         log_interaction user_input "" "" "" (Some error_msg) false).

End WithApi.

End Pipeline.

(** ** Small worlds to run the definitions in *)

Module Samples.
Import PyStr PyStrMore Py Terminal Pipeline.

(** A world without state in which every command has the same outcome and
    only [/home/u] exists. *)
Definition fixed_os (outcome : result CompletedProcess) : OS := {|
  World := unit;
  subprocess_run := fun command cwd timeout w => (outcome, w);
  os_path_expanduser := fun path w => Return path;
  os_path_exists := fun path w => Return (path =? "/home/u");
  os_path_isdir := fun path w => Return (path =? "/home/u");
  os_makedirs := fun path w => (Return tt, w);
  datetime_now := fun w => "2024-01-01 00:00:00"
|}.

Definition fixed_machine (outcome : result CompletedProcess)
  : @Machine (fixed_os outcome) := {|
  world := (tt : @World (fixed_os outcome));
  command_executor := {| working_directory := "/home/u" |};
  session_logger := {| history := [] |};
  gui := {| output_area := Some []; current_directory := "~";
            prompt_label := Some "~ $ " |};
  calls := []
|}.

(** A service that answers every request but [fail] with a fenced [ls -la]
    and fails on [fail]. *)
Definition sample_api : @LLMApi sample_os := {|
  chat_completion := fun self natural_language timeout w =>
    (if natural_language =? "fail" then inl "Connection error."
     else inr ("```bash" ++ LF ++ "ls -la" ++ LF ++ "```"), w);
  print := fun text w => w
|}.

Definition sample_llm : LLMHandlerState :=
  {| model := "gpt-3.5-turbo"; system_prompt := "" |}.

Definition sample_builtins : @Builtins sample_os := {|
  help_text := "";
  _handle_exit := ret tt;
  _display_history := ret tt;
  _display_summary := ret tt
|}.

End Samples.

(* ================================================================== *)
(** * Part II: properties *)
(* ================================================================== *)

(** ** Strings *)

Module PyStrFacts.
Import PyStr.

Lemma append_nil_r (s : string) : s ++ "" = s.
Proof. induction s as [|a s IH]; simpl; [reflexivity | now rewrite IH]. Qed.

Lemma append_assoc (s t u : string) : (s ++ t) ++ u = s ++ t ++ u.
Proof. induction s as [|a s IH]; simpl; [reflexivity | now rewrite IH]. Qed.

Lemma is_empty_true (s : string) : is_empty s = true <-> s = "".
Proof. destruct s; simpl; split; congruence. Qed.

Lemma is_empty_app (s t : string) : is_empty s = false -> is_empty (s ++ t) = false.
Proof. destruct s; simpl; congruence. Qed.

Lemma prefix_nil (s : string) : String.prefix "" s = true.
Proof. destruct s; reflexivity. Qed.

Lemma prefix_cons (a b : ascii) (p s : string) :
  String.prefix (String a p) (String b s) = Ascii.eqb a b && String.prefix p s.
Proof.
  simpl. destruct (ascii_dec a b) as [->|Hne].
  - now rewrite Ascii.eqb_refl.
  - apply Ascii.eqb_neq in Hne. now rewrite Hne.
Qed.

Lemma prefix_app (p s : string) : String.prefix p (p ++ s) = true.
Proof.
  induction p as [|a p IH]; [apply prefix_nil|].
  change (String a p ++ s) with (String a (p ++ s)).
  now rewrite prefix_cons, Ascii.eqb_refl, IH.
Qed.

Lemma prefix_split (p s : string) :
  String.prefix p s = true -> exists t, s = p ++ t.
Proof.
  revert s. induction p as [|a p IH]; intros s H.
  - now exists s.
  - destruct s as [|b s]; [discriminate|].
    rewrite prefix_cons in H. apply andb_true_iff in H as [Hab Hp].
    apply Ascii.eqb_eq in Hab. subst b.
    destruct (IH _ Hp) as [t ->]. now exists t.
Qed.

Lemma contains_prefix (n h : string) :
  String.prefix n h = true -> contains n h = true.
Proof. intros H. destruct h; cbn [contains]; now rewrite H. Qed.

Lemma contains_app (n pre post : string) : contains n (pre ++ n ++ post) = true.
Proof.
  induction pre as [|a pre IH].
  - change ("" ++ n ++ post) with (n ++ post).
    apply contains_prefix, prefix_app.
  - change (String a pre ++ n ++ post) with (String a (pre ++ n ++ post)).
    cbn [contains]. rewrite IH. apply orb_true_r.
Qed.

Lemma contains_split (n h : string) :
  contains n h = true -> exists pre post, h = pre ++ n ++ post.
Proof.
  induction h as [|a h IH]; cbn [contains]; intros H.
  - rewrite orb_false_r in H. destruct n; [|discriminate].
    now exists "", "".
  - apply orb_true_iff in H as [H|H].
    + destruct (prefix_split _ _ H) as [t Ht]. exists "", t. exact Ht.
    + destruct (IH H) as (pre & post & ->). now exists (String a pre), post.
Qed.

Lemma contains_iff (n h : string) :
  contains n h = true <-> exists pre post, h = pre ++ n ++ post.
Proof.
  split; [apply contains_split|].
  intros (pre & post & ->). apply contains_app.
Qed.

(** *** Stripping *)

Lemma rstrip_cons_solid (a : ascii) (s : string) :
  isspace a = false -> rstrip (String a s) = String a (rstrip s).
Proof. intros H. simpl. now rewrite H, andb_false_r. Qed.

Lemma rstrip_cons_nonempty (a : ascii) (s : string) :
  is_empty (rstrip s) = false -> rstrip (String a s) = String a (rstrip s).
Proof. intros H. simpl. now rewrite H. Qed.

Lemma rstrip_idem (s : string) : rstrip (rstrip s) = rstrip s.
Proof.
  induction s as [|a s IH]; [reflexivity|].
  simpl. destruct (is_empty (rstrip s) && isspace a) eqn:E; [reflexivity|].
  simpl. now rewrite IH, E.
Qed.

Lemma lstrip_fixed (s : string) :
  starts_solid s = true \/ s = "" -> lstrip s = s.
Proof.
  destruct s as [|a s]; [reflexivity|]. simpl.
  intros [H|H]; [|discriminate].
  apply negb_true_iff in H. now rewrite H.
Qed.

Lemma lstrip_starts (s : string) :
  starts_solid (lstrip s) = true \/ lstrip s = "".
Proof.
  induction s as [|a s IH]; [now right|].
  simpl. destruct (isspace a) eqn:E; [exact IH|].
  left. simpl. now rewrite E.
Qed.

Lemma rstrip_starts (s : string) :
  starts_solid s = true \/ s = "" ->
  starts_solid (rstrip s) = true \/ rstrip s = "".
Proof.
  intros [H| ->]; [|now right].
  destruct s as [|a s]; [discriminate|].
  simpl in H. apply negb_true_iff in H.
  rewrite rstrip_cons_solid by exact H. left. simpl. now rewrite H.
Qed.

Lemma strip_idem (s : string) : strip (strip s) = strip s.
Proof.
  unfold strip.
  rewrite (lstrip_fixed (rstrip (lstrip s))).
  - apply rstrip_idem.
  - apply rstrip_starts, lstrip_starts.
Qed.

Lemma strip_nil : strip "" = "".
Proof. reflexivity. Qed.

Lemma ends_solid_nonempty (m : string) : ends_solid m = true -> is_empty m = false.
Proof. destruct m; simpl; congruence. Qed.

Lemma rstrip_ends_solid (m post : string) :
  ends_solid m = true -> rstrip (m ++ post) = m ++ rstrip post.
Proof.
  induction m as [|a m IH]; [discriminate|].
  intros H. destruct m as [|b m].
  - simpl in H. apply negb_true_iff in H.
    change (String a "" ++ post) with (String a post).
    now rewrite rstrip_cons_solid.
  - change (String a (String b m) ++ post) with (String a (String b m ++ post)).
    rewrite rstrip_cons_nonempty; rewrite (IH H); [reflexivity|].
    reflexivity.
Qed.

Lemma rstrip_keeps_infix (pre m post : string) :
  ends_solid m = true -> rstrip (pre ++ m ++ post) = pre ++ m ++ rstrip post.
Proof.
  intros H. induction pre as [|a pre IH].
  - cbn [append]. apply rstrip_ends_solid, H.
  - change (String a pre ++ m ++ post) with (String a (pre ++ m ++ post)).
    rewrite rstrip_cons_nonempty; rewrite IH; [reflexivity|].
    destruct pre; [|reflexivity].
    simpl (_ ++ _). apply is_empty_app, ends_solid_nonempty, H.
Qed.

Lemma lstrip_keeps_infix (pre m post : string) :
  starts_solid m = true ->
  exists pre', lstrip (pre ++ m ++ post) = pre' ++ m ++ post.
Proof.
  intros H. induction pre as [|a pre IH].
  - exists "". cbn [append]. apply lstrip_fixed. left.
    destruct m; [discriminate|exact H].
  - change (String a pre ++ m ++ post) with (String a (pre ++ m ++ post)).
    simpl. destruct (isspace a).
    + exact IH.
    + now exists (String a pre).
Qed.

(** Stripping cannot cut into a piece that begins and ends with characters
    other than white space. *)
Lemma strip_keeps_infix (pre m post : string) :
  starts_solid m = true -> ends_solid m = true ->
  exists pre' post', strip (pre ++ m ++ post) = pre' ++ m ++ post'.
Proof.
  intros Hs He. unfold strip.
  destruct (lstrip_keeps_infix pre m post Hs) as [pre' ->].
  exists pre', (rstrip post). now apply rstrip_keeps_infix.
Qed.

Lemma ends_solid_app (s t : string) :
  ends_solid t = true -> ends_solid (s ++ t) = true.
Proof.
  intros H. induction s as [|a s IH]; [exact H|].
  change (String a s ++ t) with (String a (s ++ t)).
  simpl. rewrite IH. destruct (s ++ t) eqn:E; [|reflexivity].
  destruct s; simpl in E; [subst t|]; discriminate.
Qed.

Lemma starts_solid_app (s t : string) :
  starts_solid s = true -> starts_solid (s ++ t) = true.
Proof. destruct s; simpl; congruence. Qed.

Lemma all_chars_lstrip (p : ascii -> bool) (s : string) :
  all_chars p s = true -> all_chars p (lstrip s) = true.
Proof.
  induction s as [|a s IH]; [reflexivity|].
  intros H. simpl. destruct (isspace a); [|exact H].
  simpl in H. apply andb_true_iff in H as [_ H]. now apply IH.
Qed.

Lemma all_chars_rstrip (p : ascii -> bool) (s : string) :
  all_chars p s = true -> all_chars p (rstrip s) = true.
Proof.
  induction s as [|a s IH]; [reflexivity|].
  simpl. intros H. apply andb_true_iff in H as [Ha H].
  destruct (is_empty (rstrip s) && isspace a); [reflexivity|].
  simpl. now rewrite Ha, IH.
Qed.

Lemma all_chars_strip (p : ascii -> bool) (s : string) :
  all_chars p s = true -> all_chars p (strip s) = true.
Proof. intros H. now apply all_chars_rstrip, all_chars_lstrip. Qed.

(** *** Case *)

Lemma isspace_lower (a : ascii) : isspace (lower a) = isspace a.
Proof. destruct a as [[] [] [] [] [] [] [] []]; reflexivity. Qed.

Lemma lower_str_app (s t : string) :
  lower_str (s ++ t) = lower_str s ++ lower_str t.
Proof. induction s as [|a s IH]; simpl; [reflexivity | now rewrite IH]. Qed.

Lemma lower_str_split (c x y : string) :
  lower_str c = x ++ y ->
  exists x' y', c = x' ++ y' /\ lower_str x' = x /\ lower_str y' = y.
Proof.
  revert c. induction x as [|a x IH]; intros c H.
  - exists "", c. auto.
  - destruct c as [|b c]; [discriminate|].
    simpl in H. injection H as Hb Hc.
    destruct (IH _ Hc) as (x' & y' & -> & Hx & Hy).
    exists (String b x'), y'. simpl. now rewrite Hb, Hx.
Qed.

Lemma lower_str_is_empty (s t : string) :
  lower_str s = lower_str t -> is_empty s = is_empty t.
Proof. destruct s, t; simpl; congruence. Qed.

Lemma lower_str_lstrip (s t : string) :
  lower_str s = lower_str t -> lower_str (lstrip s) = lower_str (lstrip t).
Proof.
  revert t. induction s as [|a s IH]; intros [|b t] H; try discriminate.
  - reflexivity.
  - simpl in H. injection H as Hab Hst. simpl.
    rewrite <- (isspace_lower a), <- (isspace_lower b), Hab.
    destruct (isspace (lower b)); [now apply IH|].
    simpl. now rewrite Hab, Hst.
Qed.

Lemma lower_str_rstrip (s t : string) :
  lower_str s = lower_str t -> lower_str (rstrip s) = lower_str (rstrip t).
Proof.
  revert t. induction s as [|a s IH]; intros [|b t] H; try discriminate.
  - reflexivity.
  - simpl in H. injection H as Hab Hst. simpl.
    specialize (IH _ Hst).
    rewrite (lower_str_is_empty _ _ IH).
    rewrite <- (isspace_lower a), <- (isspace_lower b), Hab.
    destruct (is_empty (rstrip t) && isspace (lower b)); [reflexivity|].
    simpl. now rewrite Hab, IH.
Qed.

Lemma lower_str_strip (s t : string) :
  lower_str s = lower_str t -> lower_str (strip s) = lower_str (strip t).
Proof. intros H. now apply lower_str_rstrip, lower_str_lstrip. Qed.

End PyStrFacts.

(** ** Regular expressions: the matcher against the language *)

Module ReFacts.
Import PyStr Re PyStrFacts.

Create HintDb re.
#[local] Hint Constructors matches : re.

Lemma nullable_matches (ic : bool) (r : regex) :
  nullable r = true -> matches ic r "".
Proof.
  induction r; simpl; intros H; try discriminate; auto with re.
  - apply andb_true_iff in H as [H1 H2].
    change "" with ("" ++ ""). auto with re.
  - apply orb_true_iff in H as [H|H]; auto with re.
Qed.

Lemma matches_nullable (ic : bool) (r : regex) (s : string) :
  matches ic r s -> s = "" -> nullable r = true.
Proof.
  induction 1; intros E; simpl; try reflexivity; try discriminate.
  - destruct s1; [|discriminate]. simpl in E.
    now rewrite IHmatches1, IHmatches2.
  - now rewrite IHmatches.
  - rewrite IHmatches by exact E. apply orb_true_r.
Qed.

(** Reading one character of a match. *)
Lemma matches_deriv (ic : bool) (r : regex) (s : string) :
  matches ic r s ->
  forall a s', s = String a s' -> matches ic (deriv ic a r) s'.
Proof.
  induction 1; intros b t E; try discriminate.
  - injection E as -> <-. simpl. rewrite H. constructor.
  - simpl. destruct s1 as [|c s1].
    + simpl in E. rewrite (matches_nullable _ _ _ H eq_refl).
      apply M_AltR. now apply IHmatches2.
    + simpl in E. injection E as -> <-.
      assert (matches ic (deriv ic b r1 @@ r2) (s1 ++ s2))
        by (constructor; [now apply IHmatches1 | assumption]).
      destruct (nullable r1); [now apply M_AltL | assumption].
  - simpl. apply M_AltL. now apply IHmatches.
  - simpl. apply M_AltR. now apply IHmatches.
  - destruct s1 as [|c s1].
    + simpl in E. now apply IHmatches2.
    + simpl in E. injection E as -> <-. simpl.
      constructor; [now apply IHmatches1 | assumption].
Qed.

Lemma deriv_matches (ic : bool) (a : ascii) (r : regex) :
  forall s, matches ic (deriv ic a r) s -> matches ic r (String a s).
Proof.
  induction r; simpl; intros s H.
  - inversion H.
  - inversion H.
  - destruct (sym_match ic cs a) eqn:E; inversion H; subst. now constructor.
  - assert (Hcat : forall t, matches ic (deriv ic a r1 @@ r2) t ->
                             matches ic (r1 @@ r2) (String a t)).
    { intros t Ht. inversion Ht; subst.
      change (String a (s1 ++ s2)) with (String a s1 ++ s2).
      constructor; [now apply IHr1 | assumption]. }
    destruct (nullable r1) eqn:N.
    + inversion H; subst; [now apply Hcat|].
      change (String a s) with ("" ++ String a s).
      constructor; [now apply nullable_matches | now apply IHr2].
    + now apply Hcat.
  - inversion H; subst; [apply M_AltL | apply M_AltR]; auto.
  - inversion H; subst.
    change (String a (s1 ++ s2)) with (String a s1 ++ s2).
    constructor; [now apply IHr | assumption].
Qed.

(** [match_prefix] finds exactly the matches that start where [s] starts. *)
Lemma match_prefix_complete (ic : bool) (m post : string) :
  forall r, matches ic r m -> match_prefix ic r (m ++ post) = true.
Proof.
  induction m as [|a m IH]; intros r H.
  - cbn [append]. destruct post; cbn [match_prefix];
      now rewrite (matches_nullable _ _ _ H eq_refl).
  - change (String a m ++ post) with (String a (m ++ post)).
    cbn [match_prefix]. rewrite (IH (deriv ic a r)); [apply orb_true_r|].
    now apply (matches_deriv _ _ _ H).
Qed.

Lemma match_prefix_sound (ic : bool) (s : string) :
  forall r, match_prefix ic r s = true ->
            exists m post, s = m ++ post /\ matches ic r m.
Proof.
  induction s as [|a s IH]; intros r H; cbn [match_prefix] in H.
  - rewrite orb_false_r in H. exists "", "". split; [reflexivity|].
    now apply nullable_matches.
  - apply orb_true_iff in H as [H|H].
    + exists "", (String a s). split; [reflexivity|]. now apply nullable_matches.
    + destruct (IH _ H) as (m & post & -> & Hm).
      exists (String a m), post. split; [reflexivity|].
      now apply deriv_matches.
Qed.

(** [search] finds a match where there is one. *)
Lemma search_complete (ic : bool) (r : regex) (pre m post : string) :
  matches ic r m -> search ic r (pre ++ m ++ post) = true.
Proof.
  intros H. induction pre as [|a pre IH].
  - cbn [append]. destruct (m ++ post) eqn:E; cbn [search]; rewrite <- E;
      now rewrite match_prefix_complete.
  - change (String a pre ++ m ++ post) with (String a (pre ++ m ++ post)).
    cbn [search]. rewrite IH. apply orb_true_r.
Qed.

Lemma search_sound (ic : bool) (r : regex) (s : string) :
  search ic r s = true ->
  exists pre m post, s = pre ++ m ++ post /\ matches ic r m.
Proof.
  induction s as [|a s IH]; cbn [search]; intros H.
  - rewrite orb_false_r in H.
    destruct (match_prefix_sound _ _ _ H) as (m & post & E & Hm).
    now exists "", m, post.
  - apply orb_true_iff in H as [H|H].
    + destruct (match_prefix_sound _ _ _ H) as (m & post & E & Hm).
      now exists "", m, post.
    + destruct (IH H) as (pre & m & post & -> & Hm).
      now exists (String a pre), m, post.
Qed.

(** [re.search] is true exactly when a piece of the subject is in the
    language of the pattern. *)
Theorem search_spec (ic : bool) (r : regex) (s : string) :
  search ic r s = true <->
  exists pre m post, s = pre ++ m ++ post /\ matches ic r m.
Proof.
  split; [apply search_sound|].
  intros (pre & m & post & -> & H). now apply search_complete.
Qed.

(** *** Matching under [re.IGNORECASE] *)

Lemma deriv_lower (a b : ascii) (r : regex) :
  lower a = lower b -> deriv true a r = deriv true b r.
Proof.
  intros E. induction r; simpl; rewrite ?IHr1, ?IHr2, ?IHr; try reflexivity.
  unfold sym_match. now rewrite E.
Qed.

Lemma match_prefix_lower (s t : string) :
  lower_str s = lower_str t ->
  forall r, match_prefix true r s = match_prefix true r t.
Proof.
  revert t. induction s as [|a s IH]; intros [|b t] E r; try discriminate.
  - reflexivity.
  - simpl in E. injection E as Eab Est. cbn [match_prefix].
    now rewrite (deriv_lower a b r Eab), (IH t Est).
Qed.

(** A case-insensitive search does not see the case of its subject. *)
Lemma search_lower (r : regex) (s t : string) :
  lower_str s = lower_str t -> search true r s = search true r t.
Proof.
  revert t. induction s as [|a s IH]; intros [|b t] E; try discriminate.
  - reflexivity.
  - cbn [search]. rewrite (match_prefix_lower _ _ E).
    simpl in E. injection E as _ Est. now rewrite (IH t Est).
Qed.

Lemma lit_char_ci (x a : ascii) :
  lower a = lower x -> sym_match true (CsLit x) a = true.
Proof.
  intros E. unfold sym_match, cs_mem. rewrite E. clear E a.
  destruct x as [[] [] [] [] [] [] [] []]; reflexivity.
Qed.

(** A literal pattern matches each case variant of its text. *)
Lemma matches_lit_ci (w m : string) :
  lower_str m = lower_str w -> matches true (lit w) m.
Proof.
  revert m. induction w as [|x w IH]; intros [|a m] E; try discriminate.
  - constructor.
  - simpl in E. injection E as Ea Em.
    cbn [lit]. change (String a m) with (String a "" ++ m).
    apply M_Cat; [apply M_Sym; now apply lit_char_ci | now apply IH].
Qed.

Lemma matches_star_space (ic : bool) (s : string) :
  all_chars isspace s = true -> matches ic ws0 s.
Proof.
  induction s as [|a s IH]; intros H; [constructor|].
  simpl in H. apply andb_true_iff in H as [Ha Hs].
  change (String a s) with (String a "" ++ s).
  apply M_StarS; [|now apply IH].
  apply M_Sym. unfold sym_match, cs_mem. destruct ic; [|exact Ha].
  now rewrite isspace_lower, Ha.
Qed.

(** [\s+] matches every non-empty run of white space. *)
Lemma matches_ws1 (ic : bool) (s : string) :
  is_empty s = false -> all_chars isspace s = true -> matches ic ws1 s.
Proof.
  destruct s as [|a s]; [discriminate|]. intros _ H.
  simpl in H. apply andb_true_iff in H as [Ha Hs].
  change (String a s) with (String a "" ++ s).
  apply M_Cat; [|now apply matches_star_space].
  apply M_Sym. unfold sym_match, cs_mem. destruct ic; [|exact Ha].
  now rewrite isspace_lower, Ha.
Qed.

End ReFacts.

(** ** The safety filter *)

Module SafetyFilterFacts.
Import PyStr Re SafetyFilter Wording PyStrFacts ReFacts.

(** The verdict depends on the stripped command only. *)
Lemma is_safe_strip (c : string) : is_safe c = is_safe (strip c).
Proof.
  unfold is_safe. rewrite strip_idem.
  destruct c as [|a c]; [reflexivity|].
  cbn [is_empty orb]. now rewrite orb_diag.
Qed.

Lemma blocked_by_pattern_stage (c : string) :
  matches_dangerous_pattern (strip c) = true -> fst (is_safe c) = false.
Proof.
  intros H. unfold is_safe.
  destruct (is_empty c || is_empty (strip c)); [reflexivity|].
  cbv zeta. destruct (dangerous_command_in (strip c)); [reflexivity|].
  now rewrite H.
Qed.

Lemma blocked_by_pattern (p : regex) (c : string) :
  In p DANGEROUS_PATTERNS -> search true p (strip c) = true ->
  fst (is_safe c) = false.
Proof.
  intros Hin Hs. apply blocked_by_pattern_stage.
  unfold matches_dangerous_pattern. apply existsb_exists. now exists p.
Qed.

(** A piece that a pattern matches and that stripping cannot cut blocks the
    command it occurs in. *)
Lemma blocked_by_solid_match (p : regex) (pre m post : string) :
  In p DANGEROUS_PATTERNS -> matches true p m ->
  starts_solid m = true -> ends_solid m = true ->
  fst (is_safe (pre ++ m ++ post)) = false.
Proof.
  intros Hin Hm Hs He. apply (blocked_by_pattern p); [exact Hin|].
  destruct (strip_keeps_infix pre m post Hs He) as (pre' & post' & ->).
  now apply search_complete.
Qed.

Lemma starts_solid_lower (m w : string) :
  lower_str m = w -> starts_solid w = true -> starts_solid m = true.
Proof.
  intros <-. destruct m as [|a m]; simpl; [congruence|].
  now rewrite isspace_lower.
Qed.

Lemma ends_solid_lower (m w : string) :
  lower_str m = w -> ends_solid w = true -> ends_solid m = true.
Proof.
  intros <-. induction m as [|a m IH]; [discriminate|].
  destruct m as [|b m].
  - simpl. now rewrite isspace_lower.
  - intros H. apply IH. exact H.
Qed.

(** The pattern stage of [is_safe] does not see the case of the command. *)
Lemma pattern_stage_lower (s t : string) :
  lower_str s = lower_str t ->
  matches_dangerous_pattern s = matches_dangerous_pattern t.
Proof.
  intros E. unfold matches_dangerous_pattern.
  induction DANGEROUS_PATTERNS as [|p ps IH]; [reflexivity|].
  simpl. now rewrite (search_lower p s t E), IH.
Qed.

(** *** The sanitizer *)

Lemma contains_needs_char (x : ascii) (n h : string) (p : ascii -> bool) :
  p x = false -> all_chars p h = true -> contains (String x n) h = false.
Proof.
  intros Hx. induction h as [|a h IH]; [reflexivity|].
  simpl all_chars. intros H. apply andb_true_iff in H as [Ha Hh].
  cbn [contains]. rewrite prefix_cons, (IH Hh), orb_false_r.
  destruct (Ascii.eqb x a) eqn:E; [|reflexivity].
  apply Ascii.eqb_eq in E. congruence.
Qed.

Lemma no_chain_char_no_chaining (s : string) :
  all_chars not_chain_char s = true -> has_chaining s = false.
Proof.
  intros H. unfold has_chaining.
  now rewrite !(contains_needs_char _ _ s not_chain_char) by (reflexivity || exact H).
Qed.

Lemma split_runs_nonempty (sep : ascii -> bool) (s : string) :
  forall b, split_runs sep b s <> [].
Proof.
  induction s as [|a s IH]; intros b; simpl; [discriminate|].
  destruct (sep a).
  - destruct b; [apply IH | discriminate].
  - destruct (split_runs sep false s); discriminate.
Qed.

(** The first piece of a split is the text before the first separator. *)
Lemma split_head (sep : ascii -> bool) (s : string) :
  exists p rest,
    s = p ++ rest /\
    all_chars (fun a => negb (sep a)) p = true /\
    (rest = "" \/ exists a r, rest = String a r /\ sep a = true) /\
    hd "" (split_class sep s) = p.
Proof.
  unfold split_class. induction s as [|a s IH].
  - exists "", "". repeat split; auto.
  - simpl. destruct (sep a) eqn:E.
    + exists "", (String a s). repeat split; eauto.
    + destruct IH as (p & rest & -> & Hp & Hrest & Hhd).
      exists (String a p), rest.
      destruct (split_runs sep false (p ++ rest)) as [|q qs] eqn:S;
        [now apply split_runs_nonempty in S|].
      simpl in Hhd. subst q. simpl. rewrite E. repeat split; auto.
Qed.

Ltac pick_pattern :=
  unfold DANGEROUS_PATTERNS, In;
  repeat first [ left; reflexivity | right ].

(** C1.  Every command that contains a recursive force-delete aimed at the
    root ([rm -rf /], [rm -rf /etc], [rm -rf /*], alone or inside a longer
    command) gets a blocked verdict from [is_safe]. *)
Theorem is_safe_blocks_root_force_delete (c : string) :
  root_force_delete_shape c -> fst (is_safe c) = false.
Proof.
  intros (pre & rm & s1 & rf & s2 & post & -> & Hrm & Hrf & E1 & W1 & E2 & W2).
  set (m := rm ++ s1 ++ rf ++ s2 ++ "/").
  replace (pre ++ rm ++ s1 ++ rf ++ s2 ++ "/" ++ post) with (pre ++ m ++ post)
    by (unfold m; now rewrite !append_assoc).
  apply (blocked_by_solid_match
           (lit "rm" @@ ws1 @@ lit "-rf" @@ ws1 @@ lit "/")).
  - pick_pattern.
  - unfold m.
    apply M_Cat; [now apply matches_lit_ci|].
    apply M_Cat; [now apply matches_ws1|].
    apply M_Cat; [now apply matches_lit_ci|].
    apply M_Cat; [now apply matches_ws1|].
    now apply matches_lit_ci.
  - unfold m. apply starts_solid_app.
    now apply (starts_solid_lower rm "rm").
  - unfold m. now do 4 apply ends_solid_app.
Qed.

Lemma is_safe_blocks_root_force_delete_witness :
  root_force_delete_shape "echo x; rm -rf /etc" /\
  fst (is_safe "echo x; rm -rf /etc") = false.
Proof.
  assert (H : root_force_delete_shape "echo x; rm -rf /etc").
  { exists "echo x; ", "rm", " ", "-rf", " ", "etc". repeat split; reflexivity. }
  split; [exact H | exact (is_safe_blocks_root_force_delete _ H)].
Defined.

(** C9.  A command in which [shutdown], [reboot], [halt] or [poweroff]
    occurs anywhere, in any case and also inside a longer word, is blocked:
    these patterns are searched for as plain substrings. *)
Theorem is_safe_blocks_power_words (c w : string) :
  In w power_words -> contains w (lower_str c) = true ->
  fst (is_safe c) = false.
Proof.
  intros Hw Hc.
  destruct (contains_split _ _ Hc) as (pre & post & E).
  destruct (lower_str_split _ _ _ E) as (pre' & y & -> & _ & Ey).
  destruct (lower_str_split _ _ _ Ey) as (m & post' & -> & Em & _).
  apply (blocked_by_solid_match (lit w)).
  - unfold power_words, In in Hw.
    destruct Hw as [<-|[<-|[<-|[<-|[]]]]]; pick_pattern.
  - apply matches_lit_ci. rewrite Em.
    destruct Hw as [<-|[<-|[<-|[<-|[]]]]]; reflexivity.
  - apply (starts_solid_lower m w Em).
    destruct Hw as [<-|[<-|[<-|[<-|[]]]]]; reflexivity.
  - apply (ends_solid_lower m w Em).
    destruct Hw as [<-|[<-|[<-|[<-|[]]]]]; reflexivity.
Qed.

Lemma is_safe_blocks_power_words_witness :
  In "halt" power_words /\
  contains "halt" (lower_str "cat Halted.txt") = true /\
  fst (is_safe "cat Halted.txt") = false.
Proof.
  assert (Hw : In "halt" power_words)
    by (unfold power_words, In; right; right; left; reflexivity).
  assert (Hc : contains "halt" (lower_str "cat Halted.txt") = true)
    by reflexivity.
  exact (conj Hw (conj Hc (is_safe_blocks_power_words _ _ Hw Hc))).
Defined.

(** C8.  The five benign commands of the allowlist are allowed, with the
    affirmative reason. *)
Theorem is_safe_allows_benign_commands :
  Forall (fun c => is_safe c = (true, "Command passed safety checks"))
         [ "ls -la"; "pwd"; "cat file.txt"; "df -h"; "whoami" ].
Proof. repeat constructor. Qed.

(** C2, as stated, fails: the literal denylist, the critical-directory
    guard and the elevation guard compare with case. *)
Lemma is_safe_sees_case :
  (case_variant "sudo ls" "SUDO ls" /\
   fst (is_safe "sudo ls") = false /\ fst (is_safe "SUDO ls") = true) /\
  (case_variant "mkfs /dev/sdb1" "MKFS /dev/sdb1" /\
   fst (is_safe "mkfs /dev/sdb1") = false /\
   fst (is_safe "MKFS /dev/sdb1") = true) /\
  (case_variant "rm -r /usr/x" "RM -r /usr/x" /\
   fst (is_safe "rm -r /usr/x") = false /\
   fst (is_safe "RM -r /usr/x") = true).
Proof. repeat split. Qed.

(** C2, amended.  [is_safe] strips the command before every check, and its
    pattern denylist is blind to case: two case variants of a command get
    the same answer from it. *)
Theorem is_safe_strips_and_patterns_ignore_case (c c' : string) :
  is_safe c = is_safe (strip c) /\
  (case_variant c c' ->
   matches_dangerous_pattern (strip c) = matches_dangerous_pattern (strip c')).
Proof.
  split; [apply is_safe_strip|].
  intros E. now apply pattern_stage_lower, lower_str_strip.
Qed.

Lemma is_safe_strips_and_patterns_ignore_case_witness :
  case_variant " Reboot now " " rEBOOT NOW " /\
  matches_dangerous_pattern (strip " Reboot now ")
  = matches_dangerous_pattern (strip " rEBOOT NOW ").
Proof.
  split; [reflexivity|].
  apply (is_safe_strips_and_patterns_ignore_case " Reboot now " " rEBOOT NOW ").
  reflexivity.
Defined.

(** C3.  The elevation guard misses an invocation that is not followed and,
    inside the command, preceded by a space: each of these commands is
    allowed. *)
Theorem is_safe_allows_some_elevation :
  Forall (fun c => is_safe c = (true, "Command passed safety checks"))
         [ "su"; "sudo"; "true;sudo rm file.txt"; "ls | xargs sudo";
           "sudo" ++ String "009"%char "rm file.txt" ].
Proof. repeat constructor. Qed.

(** *** The sanitizer *)

Lemma sanitize_fixed (x : string) :
  strip x = x -> has_chaining x = false -> sanitize_command x = x.
Proof. intros Hs Hc. unfold sanitize_command. now rewrite Hs, Hc. Qed.

Lemma sanitize_result (c : string) :
  strip (sanitize_command c) = sanitize_command c /\
  has_chaining (sanitize_command c) = false.
Proof.
  unfold sanitize_command.
  destruct (has_chaining (strip c)) eqn:H.
  - destruct (split_head is_chain_char (strip c)) as (p & rest & _ & Hp & _ & ->).
    split; [apply strip_idem|].
    now apply no_chain_char_no_chaining, all_chars_strip.
  - split; [apply strip_idem | exact H].
Qed.

(** C4, as stated, fails: a lone pipe before the first operator already
    ends the first piece. *)
Lemma sanitize_command_cuts_at_pipe :
  has_chaining (strip "ls | grep x && echo hi") = true /\
  sanitize_command "ls | grep x && echo hi" = "ls" /\
  sanitize_as_worded "ls | grep x && echo hi" = "ls | grep x".
Proof. repeat split. Qed.

(** C4, amended.  [sanitize_command] strips the command.  If the stripped
    command contains [;], [&&] or [||], the result is the stripped text that
    precedes the first of the characters [;], [&], [|]; otherwise, and so
    when its only chaining is a lone pipe, the stripped command is returned
    whole. *)
Theorem sanitize_command_cuts_at_first_chain_char (c : string) :
  if has_chaining (strip c) then
    exists p a rest,
      strip c = p ++ String a rest /\
      all_chars not_chain_char p = true /\ is_chain_char a = true /\
      sanitize_command c = strip p
  else sanitize_command c = strip c.
Proof.
  unfold sanitize_command.
  destruct (has_chaining (strip c)) eqn:H; [|reflexivity].
  destruct (split_head is_chain_char (strip c))
    as (p & rest & E & Hp & [->|(a & r & -> & Ha)] & ->).
  - rewrite append_nil_r in E. rewrite E in H.
    now rewrite (no_chain_char_no_chaining p Hp) in H.
  - now exists p, a, r.
Qed.

(** C10, as stated, fails in its reason: a result can contain a pipe. *)
Lemma sanitize_command_keeps_pipe :
  sanitize_command "ls | grep x" = "ls | grep x" /\
  contains "|" (sanitize_command "ls | grep x") = true.
Proof. split; reflexivity. Qed.

(** C10, amended.  [sanitize_command] is idempotent, because its result is
    stripped and contains none of the operators [;], [&&], [||]. *)
Theorem sanitize_command_idempotent (c : string) :
  sanitize_command (sanitize_command c) = sanitize_command c /\
  strip (sanitize_command c) = sanitize_command c /\
  has_chaining (sanitize_command c) = false.
Proof.
  destruct (sanitize_result c) as [Hs Hc].
  split; [now apply sanitize_fixed | now split].
Qed.

End SafetyFilterFacts.

(** ** The executor, the log and the pipeline *)

Module TerminalFacts.
Import PyStr Py Terminal PyStrFacts.

Section WithOS.
Context {os : OS}.

Lemma bind_run {A B} (c : M A) (k : A -> M B) (m m1 : Machine) (a : A) :
  c m = (Return a, m1) -> bind c k m = k a m1.
Proof. intros H. unfold bind. now rewrite H. Qed.

Lemma same_backend_refl (m : Machine) : same_backend m m.
Proof. now repeat split. Qed.

Lemma same_backend_trans (m1 m2 m3 : Machine) :
  same_backend m1 m2 -> same_backend m2 m3 -> same_backend m1 m3.
Proof.
  intros (W1 & E1 & L1 & C1) (W2 & E2 & L2 & C2).
  repeat split; congruence.
Qed.

Lemma show_backend (text tag : string) (m : Machine) :
  same_backend m (show text tag m).
Proof.
  unfold show. destruct (output_area (gui m)); now repeat split.
Qed.

Lemma quiet_display_output (text tag : string) : quiet (display_output text tag).
Proof. intros m. exists (show text tag m). split; [reflexivity | apply show_backend]. Qed.

Lemma quiet_display_error (error : string) : quiet (display_error error).
Proof. apply quiet_display_output. Qed.

Lemma quiet_display_info (info : string) : quiet (display_info info).
Proof. apply quiet_display_output. Qed.

Lemma quiet_when (b : bool) (c : M unit) : quiet c -> quiet (when_ b c).
Proof.
  intros H. destruct b; [exact H|].
  intros m. exists m. split; [reflexivity | apply same_backend_refl].
Qed.

Lemma quiet_if (b : bool) (c1 c2 : M unit) :
  quiet c1 -> quiet c2 -> quiet (if b then c1 else c2).
Proof. now destruct b. Qed.

(** A quiet step can be skipped over. *)
Lemma quiet_step {B} (c : M unit) (k : unit -> M B) (m : Machine) :
  quiet c -> exists m', bind c k m = k tt m' /\ same_backend m m'.
Proof.
  intros H. destruct (H m) as (m' & E & S).
  exists m'. split; [now apply bind_run | exact S].
Qed.

(** [update_prompt] may raise, but it touches the view only. *)
Lemma update_prompt_backend (directory : string) (m : Machine) :
  same_backend m (snd (update_prompt directory m)).
Proof.
  unfold update_prompt, bind, modify, gets, raise. simpl.
  destruct (prompt_label (gui m)); now repeat split.
Qed.

(** What [execute] does, case by case. *)
Lemma execute_run (command : string) (timeout : Z) (m : Machine) :
  let cwd := working_directory (command_executor m) in
  let entered :=
    {| world := world m; command_executor := command_executor m;
       session_logger := session_logger m; gui := gui m;
       calls := (calls m ++ [CallExecute command timeout])%list |} in
  execute command timeout m =
  if is_empty (strip command) then
    (Return (false, "", "Empty command"), entered)
  else
    let '(outcome, w') := subprocess_run command cwd timeout (world m) in
    (Return
       match outcome with
       | Return result =>
           ((returncode result =? 0)%Z, cp_stdout result, cp_stderr result)
       | Raise TimeoutExpired =>
           (false, "",
            "Command timed out after " ++ str_of_int timeout ++ " seconds")
       | Raise (OtherException description) =>
           (false, "", "Error executing command: " ++ description)
       end,
     {| world := w'; command_executor := command_executor m;
        session_logger := session_logger m; gui := gui m;
        calls := (calls m ++ [CallExecute command timeout]
                          ++ [CallSpawn command cwd timeout])%list |}).
Proof.
  cbv zeta. unfold execute, bind, note, modify. simpl.
  assert (G : is_empty command || is_empty (strip command)
              = is_empty (strip command))
    by (destruct command; [reflexivity | apply orb_false_l]).
  rewrite G. destruct (is_empty (strip command)); [reflexivity|].
  unfold try_except, bind, run_subprocess, ret, set_world. simpl.
  destruct (subprocess_run command (working_directory (command_executor m))
              timeout (world m)) as [[result|[|description]] w'];
    simpl; now rewrite <- app_assoc.
Qed.

(** [execute] returns, leaves the log alone and records its call. *)
Lemma execute_total (command : string) (timeout : Z) (m : Machine) :
  exists r m',
    execute command timeout m = (Return r, m') /\
    session_logger m' = session_logger m /\
    In (CallExecute command timeout) (calls m').
Proof.
  rewrite execute_run. cbv zeta.
  destruct (is_empty (strip command)).
  - eexists _, _. split; [reflexivity|]. split; [reflexivity|].
    simpl. apply in_or_app. right. now left.
  - destruct (subprocess_run command _ timeout (world m)) as [outcome w'].
    eexists _, _. split; [reflexivity|]. split; [reflexivity|].
    simpl. apply in_or_app. right. now left.
Qed.

Lemma prompt_update_backend (b : bool) (k : string -> string) (m : Machine) :
  same_backend m
    (snd (when_ b (wd <- get_working_directory ;; update_prompt (k wd)) m)).
Proof.
  destruct b; [|apply same_backend_refl].
  unfold when_. rewrite (bind_run get_working_directory _ m m _ eq_refl).
  apply update_prompt_backend.
Qed.

Ltac skip_quiet H m' S :=
  match goal with
  | |- context [bind ?c ?k ?m] =>
      let E := fresh "E" in
      destruct (quiet_step c k m H) as (m' & E & S); rewrite E; clear E;
      cbv beta
  end.

(** C6.  [execute] never raises.  An empty or blank command is refused with
    [(False, "", "Empty command")] and no process is spawned; otherwise one
    process is spawned, and a timeout or any other failure of the spawn is
    returned as a failed result with empty output and a describing error,
    the timeout message naming the duration. *)
Theorem execute_never_raises (command : string) (timeout : Z) (m : Machine) :
  let cwd := working_directory (command_executor m) in
  let '(r, m') := execute command timeout m in
  exists success out err,
    r = Return (success, out, err) /\
    if is_empty (strip command) then
      (success, out, err) = (false, "", "Empty command") /\
      world m' = world m /\
      calls m' = (calls m ++ [CallExecute command timeout])%list
    else
      calls m' = (calls m ++ [CallExecute command timeout;
                              CallSpawn command cwd timeout])%list /\
      match fst (subprocess_run command cwd timeout (world m)) with
      | Return result =>
          (success, out, err)
          = ((returncode result =? 0)%Z, cp_stdout result, cp_stderr result)
      | Raise TimeoutExpired =>
          (success, out, err)
          = (false, "",
             "Command timed out after " ++ str_of_int timeout ++ " seconds")
      | Raise (OtherException description) =>
          (success, out, err)
          = (false, "", "Error executing command: " ++ description)
      end.
Proof.
  cbv zeta. rewrite execute_run. cbv zeta.
  destruct (is_empty (strip command)).
  - exists false, "", "Empty command". now repeat split.
  - destruct (subprocess_run command _ timeout (world m))
      as [[result|[|description]] w']; simpl;
      eexists _, _, _; repeat split.
Qed.

(** C5.  A call of [_execute_command] appends exactly one entry to the
    session log.  For a blocked verdict the executor is not called and the
    entry is marked blocked, with empty output and the verdict's reason as
    its error; for an allowed verdict the executor is called and the entry
    is not marked blocked, whatever the outcome of the execution. *)
Theorem execute_command_logs_once (natural_language command : string) (m : Machine) :
  let m' := snd (_execute_command natural_language command m) in
  exists e,
    history (session_logger m') = (history (session_logger m) ++ [e])%list /\
    Terminal.natural_language e = natural_language /\
    generated_command e = command /\
    if fst (SafetyFilter.is_safe command) then
      blocked e = false /\ In (CallExecute command 30) (calls m')
    else
      blocked e = true /\ stdout e = "" /\
      error e = Some (snd (SafetyFilter.is_safe command)) /\
      calls m' = calls m /\ world m' = world m /\
      command_executor m' = command_executor m.
Proof.
  cbv zeta. unfold _execute_command.
  destruct (SafetyFilter.is_safe command) as [[|] message]; cbn [fst snd negb].
  - skip_quiet (quiet_display_info "Executing...") m1 S1.
    destruct (execute_total command 30 m1) as ([[success out] err] & m2 & E2 & L2 & C2).
    rewrite (bind_run _ _ _ _ _ E2). cbv beta iota zeta.
    skip_quiet (quiet_when (negb (is_empty out)) _
                  (quiet_display_output (out ++ LF) "normal")) m3 S3.
    skip_quiet (quiet_when (negb (is_empty err)) _ (quiet_display_error err)) m4 S4.
    skip_quiet (quiet_when (is_empty out && is_empty err) _
                  (quiet_if success _ _
                     (quiet_display_info "Command executed successfully (no output)")
                     (quiet_display_error "Command failed (no output)"))) m5 S5.
    erewrite bind_run by reflexivity.
    match goal with
    | |- context [snd (when_ ?b (bind get_working_directory ?k) ?m6)] =>
        pose proof (prompt_update_backend b
          (fun wd => let current_dir := basename wd in
                     let current_dir :=
                       if is_empty current_dir then "/" else current_dir in
                     if negb (current_dir =? "/")
                     then "~/" ++ current_dir else current_dir) m6)
          as (W6 & X6 & L6 & C6)
    end.
    cbv zeta in W6, X6, L6, C6 |- *.
    eexists. rewrite L6, C6. cbn [set_logger session_logger history calls].
    destruct S1 as (_ & _ & L1 & _), S3 as (_ & _ & L3 & C3),
             S4 as (_ & _ & L4 & C4), S5 as (_ & _ & L5 & C5).
    rewrite L5, L4, L3, L2, L1, C5, C4, C3.
    split; [reflexivity|]. cbn. now repeat split.
  - skip_quiet (quiet_display_error message) m1 S1.
    destruct S1 as (W1 & X1 & L1 & C1).
    eexists. cbn. rewrite L1, W1, X1, C1. repeat split; reflexivity.
Qed.

(** C7, amended.  [set_working_directory] never raises.  When it returns
    [True] the expanded path exists and is a directory, and it is now the
    stored directory; when it returns [False] nothing has changed.  So a
    call never replaces a stored directory that exists by one that does
    not. *)
Theorem set_working_directory_checked (path : string) (m : Machine) :
  let '(r, m') := set_working_directory path m in
  (exists b, r = Return b) /\
  (r = Return true ->
     exists directory,
       os_path_expanduser path (world m) = Return directory /\
       m' = set_executor {| working_directory := directory |} m /\
       wd_is_directory (world m') (command_executor m')) /\
  (r = Return false ->
     m' = m /\
     forall directory,
       os_path_expanduser path (world m) = Return directory ->
       ~ wd_is_directory (world m) {| working_directory := directory |}) /\
  (wd_is_directory (world m) (command_executor m) ->
     wd_is_directory (world m') (command_executor m')).
Proof.
  unfold set_working_directory, try_except, bind, ask, modify, ret,
    wd_is_directory.
  destruct (os_path_expanduser path (world m)) as [d|e] eqn:Ed; simpl.
  2: { repeat split; eauto; try discriminate; tauto. }
  destruct (os_path_exists d (world m)) as [[|]|e] eqn:Ee; simpl.
  2, 3: repeat split; eauto; try discriminate; try tauto;
        intros d' Hd'; injection Hd' as <-; simpl; intros [Hx _]; congruence.
  destruct (os_path_isdir d (world m)) as [[|]|e] eqn:Ei; simpl.
  2, 3: repeat split; eauto; try discriminate; try tauto;
        intros d' Hd'; injection Hd' as <-; simpl; intros [_ Hx]; congruence.
  repeat split; eauto; discriminate.
Qed.

End WithOS.

(** *** In the small world *)

Lemma set_working_directory_checked_witness :
  let r := @set_working_directory sample_os "/tmp/x" sample_machine in
  fst r = Return true /\
  wd_is_directory (world sample_machine) (command_executor sample_machine) /\
  wd_is_directory (world (snd r)) (command_executor (snd r)).
Proof.
  cbv zeta.
  pose proof (@set_working_directory_checked sample_os "/tmp/x" sample_machine)
    as H.
  destruct (@set_working_directory sample_os "/tmp/x" sample_machine)
    as [r m'] eqn:E.
  destruct H as (_ & _ & _ & Hinv).
  assert (H0 : wd_is_directory (world sample_machine)
                 (command_executor sample_machine)) by (split; reflexivity).
  injection E as <- <-.
  split; [reflexivity|]. split; [exact H0 | exact (Hinv H0)].
Defined.

(** C7, as stated, fails: the stored directory need not stay an existing
    directory.  The constructor accepts the path of a regular file, and a
    command run by the executor can remove the directory it runs in. *)
Lemma working_directory_can_dangle :
  (exists ex,
     @CommandExecutor_init sample_os (Some "/etc/hostname") true
     = (Return ex, true) /\
     ~ @wd_is_directory sample_os true ex) /\
  (let '(r1, m1) := @set_working_directory sample_os "/tmp/x" sample_machine in
   let '(r2, m2) := execute "rmdir /tmp/x" 30 m1 in
   r1 = Return true /\ r2 = Return (true, "", "") /\
   working_directory (command_executor m2) = "/tmp/x" /\
   ~ wd_is_directory (world m2) (command_executor m2)).
Proof.
  split.
  - eexists. split; [reflexivity|]. intros [_ H]. discriminate H.
  - cbn. repeat split. intros [H _]. discriminate H.
Qed.

End TerminalFacts.

(** ** More on strings *)

Module PyStrMoreFacts.
Import PyStr PyStrMore PyStrFacts.

Lemma blank_lstrip (s : string) : blank s = true -> lstrip s = "".
Proof.
  induction s as [|a s IH]; [reflexivity|].
  unfold blank. simpl. intros H. apply andb_true_iff in H as [Ha Hs].
  rewrite Ha. now apply IH.
Qed.

Lemma blank_strip (s : string) : blank s = true -> strip s = "".
Proof. intros H. unfold strip. now rewrite blank_lstrip. Qed.

Lemma lstrip_blank_app (lead s : string) :
  blank lead = true -> lstrip (lead ++ s) = lstrip s.
Proof.
  induction lead as [|a lead IH]; [reflexivity|].
  unfold blank. simpl. intros H. apply andb_true_iff in H as [Ha Hs].
  rewrite Ha. now apply IH.
Qed.

Lemma nonblank_lstrip (s : string) :
  blank s = false -> is_empty (lstrip s) = false.
Proof.
  induction s as [|a s IH]; [discriminate|].
  unfold blank. simpl. destruct (isspace a); simpl; [exact IH | reflexivity].
Qed.

Lemma nonblank_rstrip (s : string) :
  blank s = false -> is_empty (rstrip s) = false.
Proof.
  induction s as [|a s IH]; [discriminate|].
  unfold blank. simpl. destruct (isspace a) eqn:Ha; simpl.
  - intros H. rewrite (IH H). reflexivity.
  - intros _. now rewrite andb_false_r.
Qed.

Lemma lstrip_app_nonblank (pre s : string) :
  blank pre = false -> lstrip (pre ++ s) = lstrip pre ++ s.
Proof.
  induction pre as [|a pre IH]; [discriminate|].
  unfold blank. simpl. destruct (isspace a); simpl; [exact IH | reflexivity].
Qed.

Lemma rstrip_app_nonblank (s post : string) :
  blank post = false -> rstrip (s ++ post) = s ++ rstrip post.
Proof.
  intros H. induction s as [|a s IH]; [reflexivity|].
  change (String a s ++ post) with (String a (s ++ post)).
  rewrite rstrip_cons_nonempty; rewrite IH; [reflexivity|].
  destruct s; [now apply nonblank_rstrip | reflexivity].
Qed.

Lemma blank_app (s t : string) : blank (s ++ t) = blank s && blank t.
Proof.
  unfold blank. induction s as [|a s IH]; [reflexivity|].
  simpl. now rewrite IH, andb_assoc.
Qed.

(** Stripping takes white space away from both ends and nothing else. *)
Lemma lstrip_split (s : string) :
  exists lead, s = lead ++ lstrip s /\ blank lead = true.
Proof.
  induction s as [|a s IH]; [now exists ""|].
  simpl. destruct (isspace a) eqn:Ha.
  - destruct IH as (lead & E & B). exists (String a lead). split.
    + simpl. now rewrite <- E.
    + unfold blank in *. simpl. now rewrite Ha.
  - now exists "".
Qed.

Lemma rstrip_split (s : string) :
  exists trail, s = rstrip s ++ trail /\ blank trail = true.
Proof.
  induction s as [|a s IH]; [now exists ""|].
  simpl. destruct IH as (trail & E & B).
  destruct (is_empty (rstrip s) && isspace a) eqn:C.
  - apply andb_true_iff in C as [Cs Ca]. apply is_empty_true in Cs.
    rewrite Cs in E. simpl in E. subst trail.
    exists (String a s). split; [reflexivity|].
    unfold blank in *. simpl. now rewrite Ca.
  - exists trail. split; [|exact B]. simpl. now rewrite <- E.
Qed.

Lemma strip_split (s : string) :
  exists lead trail,
    s = lead ++ strip s ++ trail /\ blank lead = true /\ blank trail = true.
Proof.
  destruct (lstrip_split s) as (lead & E1 & B1).
  destruct (rstrip_split (lstrip s)) as (trail & E2 & B2).
  exists lead, trail. unfold strip. now rewrite <- E2, <- E1.
Qed.

Lemma all_chars_app (p : ascii -> bool) (s t : string) :
  all_chars p (s ++ t) = all_chars p s && all_chars p t.
Proof.
  induction s as [|a s IH]; [reflexivity|].
  simpl. now rewrite IH, andb_assoc.
Qed.

End PyStrMoreFacts.

(** ** More on the safety filter *)

Module SafetyFilterMore.
Import PyStr PyStrMore Re SafetyFilter PyStrFacts PyStrMoreFacts ReFacts.

Lemma nonblank_strip (s : string) :
  blank s = false -> is_empty (strip s) = false.
Proof.
  intros H. unfold strip.
  pose proof (nonblank_lstrip s H) as Hl.
  destruct (lstrip_starts s) as [Hs|E]; [|now rewrite E in Hl].
  destruct (lstrip s) as [|a t]; [discriminate|].
  simpl in Hs. apply negb_true_iff in Hs.
  now rewrite rstrip_cons_solid.
Qed.

Lemma critical_message_blocked (dirs : list string) (s message : string) :
  critical_dir_check dirs s = Some message ->
  startswith "Blocked: " message = true.
Proof.
  induction dirs as [|d dirs IH]; simpl; [discriminate|].
  destruct (search false _ s); [intros [= <-]; reflexivity|].
  destruct (search false _ s); [intros [= <-]; reflexivity|].
  exact IH.
Qed.

(** The verdict and its reason go together: the affirmative reason is given
    to allowed commands only, and every blocked one is told either
    [Empty command] or a reason that begins with [Blocked: ]. *)
Theorem is_safe_reason (c : string) :
  (fst (is_safe c) = true /\ snd (is_safe c) = "Command passed safety checks")
  \/ (fst (is_safe c) = false /\
      (snd (is_safe c) = "Empty command"
       \/ startswith "Blocked: " (snd (is_safe c)) = true)).
Proof.
  unfold is_safe.
  destruct (is_empty c || is_empty (strip c)); [right; auto|]. cbv zeta.
  destruct (dangerous_command_in (strip c)); [right; auto|].
  destruct (matches_dangerous_pattern (strip c)); [right; auto|].
  destruct (critical_dir_check critical_dirs (strip c)) eqn:E.
  - right. split; [reflexivity|]. right. simpl.
    now apply (critical_message_blocked critical_dirs (strip c)).
  - destruct (startswith "sudo " (strip c) || contains " sudo " (strip c));
      [right; auto|].
    destruct (startswith "su " (strip c) || contains " su " (strip c));
      [right; auto|].
    now left.
Qed.

(** [Empty command] is the answer to the blank commands and to no other. *)
Theorem is_safe_empty_command (c : string) :
  is_safe c = (false, "Empty command") <-> blank c = true.
Proof.
  split.
  - intros H. destruct (blank c) eqn:B; [reflexivity|].
    pose proof (nonblank_strip c B) as Hs.
    assert (Hc : is_empty c = false) by (destruct c; [discriminate | reflexivity]).
    revert H. unfold is_safe. rewrite Hc, Hs. cbv zeta. simpl orb. cbv iota.
    destruct (dangerous_command_in (strip c)); [discriminate|].
    destruct (matches_dangerous_pattern (strip c)); [discriminate|].
    destruct (critical_dir_check critical_dirs (strip c)) eqn:E.
    + intros [= ->].
      now apply (critical_message_blocked critical_dirs (strip c)) in E.
    + destruct (startswith "sudo " (strip c) || contains " sudo " (strip c));
        [discriminate|].
      destruct (startswith "su " (strip c) || contains " su " (strip c));
        discriminate.
  - intros H. unfold is_safe. rewrite (blank_strip c H). simpl.
    now rewrite orb_true_r.
Qed.

Lemma contains_strip (n s : string) :
  contains n (strip s) = true -> contains n s = true.
Proof.
  intros H. destruct (contains_split _ _ H) as (x & y & Ex).
  destruct (strip_split s) as (lead & trail & Es & _).
  rewrite Es, Ex.
  replace (lead ++ (x ++ n ++ y) ++ trail) with ((lead ++ x) ++ n ++ (y ++ trail))
    by now rewrite !append_assoc.
  apply contains_app.
Qed.

(** Each fragment of the literal denylist begins and ends with a character
    that stripping leaves alone. *)
Lemma dangerous_commands_solid (d : string) :
  In d DANGEROUS_COMMANDS -> starts_solid d = true /\ ends_solid d = true.
Proof.
  unfold DANGEROUS_COMMANDS, In.
  intros [<-|[<-|[<-|[<-|[<-|[<-|[<-|[<-|[]]]]]]]]]; split; reflexivity.
Qed.

(** A command that contains a fragment of the literal denylist, anywhere,
    is blocked, and the reason names a fragment that occurs in it: the
    first one, in the order of the list. *)
Theorem is_safe_blocks_literal_denylist (d pre post : string) :
  In d DANGEROUS_COMMANDS ->
  exists named,
    In named DANGEROUS_COMMANDS /\
    contains named (pre ++ d ++ post) = true /\
    is_safe (pre ++ d ++ post)
    = (false, "Blocked: Command contains dangerous operation '" ++ named ++ "'").
Proof.
  intros Hd. destruct (dangerous_commands_solid d Hd) as [Hs He].
  destruct (strip_keeps_infix pre d post Hs He) as (pre' & post' & E).
  assert (Hne : is_empty d = false) by now destruct d.
  set (c := pre ++ d ++ post) in *.
  assert (Hc : contains d (strip c) = true) by (rewrite E; apply contains_app).
  assert (G : is_empty c || is_empty (strip c) = false).
  { apply orb_false_iff. split.
    - unfold c. destruct pre; [|reflexivity]. cbn [append].
      now apply is_empty_app.
    - rewrite E. destruct pre'; [|reflexivity]. cbn [append].
      now apply is_empty_app. }
  unfold is_safe. rewrite G. cbv zeta.
  destruct (dangerous_command_in (strip c)) as [named|] eqn:F.
  - exists named. unfold dangerous_command_in in F.
    apply find_some in F as [Hin Hn].
    split; [exact Hin|]. split; [now apply contains_strip | reflexivity].
  - unfold dangerous_command_in in F.
    pose proof (find_none _ _ F d Hd) as Hnone. simpl in Hnone. congruence.
Qed.

Lemma is_safe_blocks_literal_denylist_witness :
  In "dd if=" DANGEROUS_COMMANDS /\
  exists named,
    In named DANGEROUS_COMMANDS /\
    contains named ("sync; " ++ "dd if=" ++ "/dev/zero of=x") = true /\
    is_safe ("sync; " ++ "dd if=" ++ "/dev/zero of=x")
    = (false, "Blocked: Command contains dangerous operation '" ++ named ++ "'").
Proof.
  assert (H : In "dd if=" DANGEROUS_COMMANDS)
    by (unfold DANGEROUS_COMMANDS, In; do 3 right; left; reflexivity).
  exact (conj H (is_safe_blocks_literal_denylist "dd if=" "sync; "
                   "/dev/zero of=x" H)).
Defined.

(** *** The critical-directory guard *)

Lemma matches_lit_exact (w : string) : matches false (lit w) w.
Proof.
  induction w as [|a w IH]; [constructor|].
  cbn [lit]. change (String a w) with (String a "" ++ w).
  apply M_Cat; [|exact IH]. apply M_Sym. apply Ascii.eqb_refl.
Qed.

Lemma matches_dots (s : string) : one_line s = true -> matches false dots s.
Proof.
  induction s as [|a s IH]; intros H; [constructor|].
  unfold one_line in H. simpl in H. apply andb_true_iff in H as [Ha Hs].
  change (String a s) with (String a "" ++ s).
  apply M_StarS; [|now apply IH]. apply M_Sym. exact Ha.
Qed.

Lemma critical_dir_check_some (dirs : list string) (s dir : string) :
  In dir dirs ->
  search false (lit "rm" @@ ws1 @@ dots @@ lit dir) s = true
  \/ search false (lit "mv" @@ ws1 @@ lit dir) s = true ->
  critical_dir_check dirs s <> None.
Proof.
  induction dirs as [|d dirs IH]; [contradiction|].
  intros Hin H. destruct Hin as [->|Hin]; cbn [critical_dir_check].
  - destruct H as [H|H]; rewrite H; [discriminate|].
    destruct (search false _ s); discriminate.
  - destruct (search false (lit "rm" @@ ws1 @@ dots @@ lit d) s);
      [discriminate|].
    destruct (search false (lit "mv" @@ ws1 @@ lit d) s); [discriminate|].
    now apply IH.
Qed.

Lemma blocked_by_critical_dir (c : string) :
  critical_dir_check critical_dirs (strip c) <> None -> fst (is_safe c) = false.
Proof.
  intros H. unfold is_safe.
  destruct (is_empty c || is_empty (strip c)); [reflexivity|]. cbv zeta.
  destruct (dangerous_command_in (strip c)); [reflexivity|].
  destruct (matches_dangerous_pattern (strip c)); [reflexivity|].
  destruct (critical_dir_check critical_dirs (strip c)); [reflexivity|].
  now contradiction H.
Qed.

Lemma critical_dirs_solid (dir : string) :
  In dir critical_dirs -> ends_solid dir = true.
Proof.
  unfold critical_dirs, In.
  intros [<-|[<-|[<-|[<-|[<-|[<-|[<-|[<-|[]]]]]]]]]; reflexivity.
Qed.

(** Whatever the rest of the command is, [rm] followed on the same line by
    one of the critical directories is blocked, and so is [mv] whose first
    operand begins with one. *)
Theorem is_safe_guards_critical_dirs (dir pre ws mid post : string) :
  In dir critical_dirs ->
  is_empty ws = false -> blank ws = true -> one_line mid = true ->
  fst (is_safe (pre ++ "rm" ++ ws ++ mid ++ dir ++ post)) = false /\
  fst (is_safe (pre ++ "mv" ++ ws ++ dir ++ post)) = false.
Proof.
  intros Hd Hw Hb Hm. pose proof (critical_dirs_solid dir Hd) as He.
  split.
  - replace (pre ++ "rm" ++ ws ++ mid ++ dir ++ post)
      with (pre ++ ("rm" ++ ws ++ mid ++ dir) ++ post)
      by (rewrite !append_assoc; reflexivity).
    destruct (strip_keeps_infix pre ("rm" ++ ws ++ mid ++ dir) post)
      as (pre' & post' & E);
      [reflexivity | now do 3 apply ends_solid_app |].
    apply blocked_by_critical_dir. rewrite E.
    apply (critical_dir_check_some _ _ dir Hd). left.
    apply search_complete.
    apply M_Cat; [apply matches_lit_exact|].
    apply M_Cat; [now apply matches_ws1|].
    apply M_Cat; [now apply matches_dots | apply matches_lit_exact].
  - replace (pre ++ "mv" ++ ws ++ dir ++ post)
      with (pre ++ ("mv" ++ ws ++ dir) ++ post)
      by (rewrite !append_assoc; reflexivity).
    destruct (strip_keeps_infix pre ("mv" ++ ws ++ dir) post)
      as (pre' & post' & E);
      [reflexivity | now do 2 apply ends_solid_app |].
    apply blocked_by_critical_dir. rewrite E.
    apply (critical_dir_check_some _ _ dir Hd). right.
    apply search_complete.
    apply M_Cat; [apply matches_lit_exact|].
    apply M_Cat; [now apply matches_ws1 | apply matches_lit_exact].
Qed.

Lemma is_safe_guards_critical_dirs_witness :
  In "/boot" critical_dirs /\
  fst (is_safe ("cd /; " ++ "rm" ++ " " ++ "-r ./" ++ "/boot" ++ "/grub")) = false /\
  fst (is_safe ("" ++ "mv" ++ " " ++ "/boot" ++ " /tmp/b")) = false.
Proof.
  assert (H : In "/boot" critical_dirs)
    by (unfold critical_dirs, In; do 5 right; left; reflexivity).
  exact (conj H (is_safe_guards_critical_dirs "/boot" "cd /; " " " "-r ./"
                   "/grub" H eq_refl eq_refl eq_refl)).
Defined.

(** *** The elevation guard *)

Lemma blocked_by_elevation (c : string) :
  startswith "sudo " (strip c) || contains " sudo " (strip c)
  || (startswith "su " (strip c) || contains " su " (strip c)) = true ->
  fst (is_safe c) = false.
Proof.
  intros H. unfold is_safe.
  destruct (is_empty c || is_empty (strip c)); [reflexivity|]. cbv zeta.
  destruct (dangerous_command_in (strip c)); [reflexivity|].
  destruct (matches_dangerous_pattern (strip c)); [reflexivity|].
  destruct (critical_dir_check critical_dirs (strip c)); [reflexivity|].
  destruct (startswith "sudo " (strip c) || contains " sudo " (strip c));
    [reflexivity|].
  simpl in H. now rewrite H.
Qed.

(** [sudo] or [su] followed by a space and more text is blocked at the
    start of the command, and between spaces it is blocked anywhere inside
    it. *)
Theorem is_safe_blocks_spaced_elevation (w lead rest pre post : string) :
  In w ["sudo"; "su"] ->
  (blank lead = true -> blank rest = false ->
   fst (is_safe (lead ++ w ++ " " ++ rest)) = false) /\
  (blank pre = false -> blank post = false ->
   fst (is_safe (pre ++ " " ++ w ++ " " ++ post)) = false).
Proof.
  intros Hw. split.
  - intros Hl Hr. apply blocked_by_elevation.
    assert (E : strip (lead ++ w ++ " " ++ rest) = (w ++ " ") ++ rstrip rest).
    { unfold strip. rewrite (lstrip_blank_app lead _ Hl).
      rewrite lstrip_fixed
        by (left; destruct Hw as [<-|[<-|[]]]; reflexivity).
      rewrite <- append_assoc. now apply rstrip_app_nonblank. }
    rewrite E. unfold startswith.
    destruct Hw as [<-|[<-|[]]].
    + change ("sudo" ++ " ") with "sudo ". now rewrite prefix_app.
    + change ("su" ++ " ") with "su ". rewrite (prefix_app "su ").
      now rewrite !orb_true_r.
  - intros Hp Hq. apply blocked_by_elevation.
    assert (E : strip (pre ++ " " ++ w ++ " " ++ post)
                = lstrip pre ++ (" " ++ w ++ " ") ++ rstrip post).
    { unfold strip. rewrite (lstrip_app_nonblank pre _ Hp).
      replace (lstrip pre ++ " " ++ w ++ " " ++ post)
        with ((lstrip pre ++ " " ++ w ++ " ") ++ post)
        by (rewrite !append_assoc; reflexivity).
      rewrite (rstrip_app_nonblank _ post Hq).
      rewrite !append_assoc. reflexivity. }
    rewrite E.
    destruct Hw as [<-|[<-|[]]].
    + change (" " ++ "sudo" ++ " ") with " sudo ".
      rewrite (contains_app " sudo "). now rewrite orb_true_r.
    + change (" " ++ "su" ++ " ") with " su ".
      rewrite (contains_app " su "). now rewrite !orb_true_r.
Qed.

Lemma is_safe_blocks_spaced_elevation_witness :
  In "su" ["sudo"; "su"] /\
  fst (is_safe ("  " ++ "su" ++ " " ++ "- root")) = false /\
  fst (is_safe ("echo pw |" ++ " " ++ "su" ++ " " ++ "-c id")) = false.
Proof.
  assert (H : In "su" ["sudo"; "su"]) by (right; left; reflexivity).
  destruct (is_safe_blocks_spaced_elevation "su" "  " "- root" "echo pw |" "-c id" H)
    as [H1 H2].
  exact (conj H (conj (H1 eq_refl eq_refl) (H2 eq_refl eq_refl))).
Defined.

(** *** The sanitizer *)

(** The sanitizer only deletes: its result is a piece of its argument. *)
Theorem sanitize_command_only_deletes (c : string) :
  exists pre post, c = pre ++ sanitize_command c ++ post.
Proof.
  destruct (strip_split c) as (lead & trail & Ec & _).
  unfold sanitize_command.
  destruct (has_chaining (strip c)).
  - destruct (SafetyFilterFacts.split_head is_chain_char (strip c))
      as (p & rest & Es & _ & _ & ->).
    destruct (strip_split p) as (l2 & t2 & Ep & _).
    exists (lead ++ l2), (t2 ++ rest ++ trail).
    rewrite Ec at 1. rewrite Es. rewrite Ep at 1.
    now rewrite !append_assoc.
  - now exists lead, trail.
Qed.

End SafetyFilterMore.

(** ** Cleaning the generated command *)

Module LLMHandlerFacts.
Import PyStr PyStrMore LLMHandler PyStrFacts PyStrMoreFacts.

Lemma split_on_nonempty (c : ascii) (s : string) : split_on c s <> [].
Proof.
  induction s as [|a s IH]; simpl; [discriminate|].
  destruct (Ascii.eqb a c); [discriminate|].
  destruct (split_on c s); discriminate.
Qed.

(** The pieces of a split hold the characters of the string, the separator
    apart. *)
Lemma split_on_pieces (p : ascii -> bool) (c : ascii) (s piece : string) :
  all_chars p s = true -> In piece (split_on c s) ->
  all_chars p piece = true /\ all_chars (fun a => negb (Ascii.eqb a c)) piece = true.
Proof.
  revert piece. induction s as [|a s IH]; intros piece Hs Hin.
  - destruct Hin as [<-|[]]. now split.
  - simpl in Hs. apply andb_true_iff in Hs as [Ha Hs].
    simpl in Hin. destruct (Ascii.eqb a c) eqn:E.
    + destruct Hin as [<-|Hin]; [now split | now apply IH].
    + destruct (split_on c s) as [|q qs] eqn:S;
        [now apply split_on_nonempty in S|].
      destruct Hin as [<-|Hin].
      * destruct (IH q Hs (or_introl eq_refl)) as [H1 H2].
        simpl. now rewrite Ha, E, H1, H2.
      * apply IH; [exact Hs | now right].
Qed.

Lemma split_on_one_line (c : ascii) (s : string) :
  all_chars (fun a => negb (Ascii.eqb a c)) s = true -> split_on c s = [s].
Proof.
  induction s as [|a s IH]; [reflexivity|].
  simpl. intros H. apply andb_true_iff in H as [Ha Hs].
  apply negb_true_iff in Ha. now rewrite Ha, (IH Hs).
Qed.

Lemma split_lines_blank (s : string) :
  (forall piece, In piece (split_on "010" s) -> blank piece = true) ->
  blank s = true.
Proof.
  induction s as [|a s IH]; [reflexivity|].
  simpl. intros H. destruct (Ascii.eqb a "010") eqn:E.
  - apply Ascii.eqb_eq in E. subst a. unfold blank. simpl.
    apply IH. intros piece Hp. apply H. now right.
  - destruct (split_on "010" s) as [|q qs] eqn:S;
      [now apply split_on_nonempty in S|].
    pose proof (H _ (or_introl eq_refl)) as Hq.
    unfold blank in Hq. simpl in Hq. apply andb_true_iff in Hq as [Ha Hq].
    unfold blank. simpl. rewrite Ha. simpl. apply IH.
    intros piece [<-|Hp]; [exact Hq | apply H; now right].
Qed.

Lemma remove_char_none (c : ascii) (s : string) :
  all_chars (fun a => negb (Ascii.eqb a c)) (remove_char c s) = true.
Proof.
  induction s as [|a s IH]; [reflexivity|].
  simpl. destruct (Ascii.eqb a c) eqn:E; [exact IH|].
  simpl. now rewrite E, IH.
Qed.

Lemma remove_char_fixed (c : ascii) (s : string) :
  all_chars (fun a => negb (Ascii.eqb a c)) s = true -> remove_char c s = s.
Proof.
  induction s as [|a s IH]; [reflexivity|].
  simpl. intros H. apply andb_true_iff in H as [Ha Hs].
  apply negb_true_iff in Ha. now rewrite Ha, (IH Hs).
Qed.

Lemma strip_opening_fence_fixed (s : string) :
  all_chars not_backtick s = true -> strip_opening_fence s = s.
Proof.
  destruct s as [|a s]; [reflexivity|].
  simpl. intros H. apply andb_true_iff in H as [Ha _].
  unfold not_backtick in Ha. apply negb_true_iff in Ha.
  unfold strip_opening_fence. cbn [drop_prefix].
  now rewrite (Ascii.eqb_sym "`" a), Ha.
Qed.

Lemma closing_match_none (a : ascii) (s : string) :
  not_backtick a = true -> not_LF a = true -> closing_match (String a s) = None.
Proof.
  unfold not_backtick, not_LF. intros Hb Hl.
  apply negb_true_iff in Hb, Hl.
  unfold closing_match, LF. cbn [drop_prefix].
  now rewrite (Ascii.eqb_sym "010" a), Hl, (Ascii.eqb_sym "`" a), Hb.
Qed.

Lemma strip_closing_fence_fixed (s : string) :
  all_chars not_backtick s = true -> strip_closing_fence s = s.
Proof.
  induction s as [|a s IH]; [reflexivity|].
  intros H. pose proof H as H'. simpl in H'.
  apply andb_true_iff in H' as [Ha Hs].
  cbn [strip_closing_fence].
  assert (C : closing_match (String a s) = None).
  { destruct (Ascii.eqb a "010") eqn:E.
    - apply Ascii.eqb_eq in E. subst a.
      destruct s as [|b s]; [reflexivity|].
      simpl in Hs. apply andb_true_iff in Hs as [Hb _].
      unfold not_backtick in Hb. apply negb_true_iff in Hb.
      unfold closing_match, LF. cbn [drop_prefix].
      rewrite Ascii.eqb_refl. cbn [drop_prefix].
      now rewrite (Ascii.eqb_sym "`" b), Hb.
    - apply closing_match_none; [exact Ha|].
      unfold not_LF. now rewrite E. }
  now rewrite C, (IH Hs).
Qed.

(** The closing fence after a one-line command. *)
Lemma strip_closing_fence_after (cmd : string) :
  all_chars not_backtick cmd = true -> one_line cmd = true ->
  strip_closing_fence (cmd ++ LF ++ "```") = cmd.
Proof.
  induction cmd as [|a cmd IH]; [reflexivity|].
  intros Hb Hl. unfold one_line in Hl. simpl in Hb, Hl.
  apply andb_true_iff in Hb as [Hb Hbs]. apply andb_true_iff in Hl as [Hl Hls].
  change (String a cmd ++ LF ++ "```") with (String a (cmd ++ LF ++ "```")).
  cbn [strip_closing_fence].
  rewrite closing_match_none by assumption.
  now rewrite (IH Hbs Hls).
Qed.

(** What [_clean_command] does after its two substitutions, on a text that
    needs no more cleaning. *)
Lemma clean_after_subs (c x : string) :
  strip_closing_fence (strip_opening_fence c) = x ->
  all_chars not_backtick x = true -> one_line x = true -> strip x = x ->
  _clean_command c = x.
Proof.
  intros E Hb Hl Hs. unfold _clean_command. rewrite E.
  rewrite (remove_char_fixed "`" x Hb), Hs.
  rewrite (split_on_one_line "010" x Hl). cbn [filter]. rewrite Hs.
  destruct x as [|a x]; [reflexivity|].
  cbn [is_empty negb map]. now rewrite Hs.
Qed.

Lemma clean_plain (c : string) :
  all_chars not_backtick c = true -> one_line c = true -> strip c = c ->
  _clean_command c = c.
Proof.
  intros Hb Hl Hs. apply clean_after_subs; try assumption.
  now rewrite strip_opening_fence_fixed, strip_closing_fence_fixed.
Qed.

(** A command without back-ticks and line feeds, and without white space
    around it, is returned as it is. *)
Theorem clean_command_keeps_plain (c : string) :
  all_chars not_backtick c = true -> one_line c = true -> strip c = c ->
  _clean_command c = c.
Proof. apply clean_plain. Qed.

Lemma clean_command_keeps_plain_witness :
  all_chars not_backtick "find . -name '*.py'" = true /\
  one_line "find . -name '*.py'" = true /\
  strip "find . -name '*.py'" = "find . -name '*.py'" /\
  _clean_command "find . -name '*.py'" = "find . -name '*.py'".
Proof.
  exact (conj eq_refl (conj eq_refl (conj eq_refl
           (clean_command_keeps_plain "find . -name '*.py'"
              eq_refl eq_refl eq_refl)))).
Defined.

Lemma clean_shape (c : string) :
  all_chars not_backtick (_clean_command c) = true /\
  one_line (_clean_command c) = true /\
  strip (_clean_command c) = _clean_command c.
Proof.
  unfold _clean_command.
  set (x := strip (remove_char "`" (strip_closing_fence (strip_opening_fence c)))).
  assert (Hb : all_chars not_backtick x = true)
    by (apply all_chars_strip, (remove_char_none "`")).
  assert (Hs : strip x = x) by apply strip_idem.
  destruct (filter (fun line => negb (is_empty (strip line))) (split_on "010" x))
    as [|q qs] eqn:F; simpl.
  - assert (Hx : blank x = true).
    { apply split_lines_blank. intros piece Hp.
      destruct (blank piece) eqn:B; [reflexivity|].
      assert (In piece (filter (fun line => negb (is_empty (strip line)))
                               (split_on "010" x))).
      { apply filter_In. split; [exact Hp|].
        now rewrite (SafetyFilterMore.nonblank_strip piece B). }
      rewrite F in H. contradiction. }
    apply blank_strip in Hx. rewrite Hs in Hx. now rewrite Hx.
  - assert (Hq : In q (split_on "010" x)).
    { apply (filter_In (fun line => negb (is_empty (strip line)))).
      rewrite F. now left. }
    destruct (split_on_pieces not_backtick "010" x q Hb Hq) as [H1 H2].
    split; [now apply all_chars_strip|].
    split; [now apply all_chars_strip | apply strip_idem].
Qed.

(** The result of [_clean_command] holds no back-tick and no line feed and
    has no white space around it. *)
Theorem clean_command_result (c : string) :
  all_chars not_backtick (_clean_command c) = true /\
  one_line (_clean_command c) = true /\
  strip (_clean_command c) = _clean_command c.
Proof. apply clean_shape. Qed.

(** Cleaning twice changes nothing more. *)
Theorem clean_command_idempotent (c : string) :
  _clean_command (_clean_command c) = _clean_command c.
Proof.
  destruct (clean_shape c) as (Hb & Hl & Hs).
  now apply clean_plain.
Qed.

(** A one-line command inside a fenced block that is bare or tagged [bash]
    or [sh] is unwrapped. *)
Theorem clean_command_unwraps_fence (tag cmd : string) :
  In tag [""; "bash"; "sh"] ->
  all_chars not_backtick cmd = true -> one_line cmd = true -> strip cmd = cmd ->
  _clean_command ("```" ++ tag ++ LF ++ cmd ++ LF ++ "```") = cmd.
Proof.
  intros Ht Hb Hl Hs. apply clean_after_subs; try assumption.
  assert (E : strip_opening_fence ("```" ++ tag ++ LF ++ cmd ++ LF ++ "```")
              = cmd ++ LF ++ "```")
    by (destruct Ht as [<-|[<-|[<-|[]]]]; reflexivity).
  rewrite E. now apply strip_closing_fence_after.
Qed.

Lemma clean_command_unwraps_fence_witness :
  In "bash" [""; "bash"; "sh"] /\
  _clean_command ("```" ++ "bash" ++ LF ++ "ls -la" ++ LF ++ "```") = "ls -la".
Proof.
  assert (H : In "bash" [""; "bash"; "sh"]) by (right; left; reflexivity).
  exact (conj H (clean_command_unwraps_fence "bash" "ls -la" H
                   eq_refl eq_refl eq_refl)).
Defined.

(** *** The tag [shell] *)

Lemma closing_after_LF (body : string) :
  strip_closing_fence (String "010" body) = ""
  \/ exists v, strip_closing_fence (String "010" body) = String "010" v.
Proof.
  cbn [strip_closing_fence].
  assert (C : closing_match (String "010" body)
              = match drop_prefix "```" body with
                | Some "" => Some ""
                | Some rest => if (rest =? LF)%string then Some LF else None
                | None => None
                end) by reflexivity.
  rewrite C. destruct (drop_prefix "```" body) as [[|b rest]|].
  - now left.
  - destruct (String b rest =? LF)%string; right; unfold LF; eauto.
  - right. eauto.
Qed.

Lemma remove_char_LF_head (u : string) :
  u = "" \/ (exists v, u = String "010" v) ->
  remove_char "`" u = "" \/ exists v, remove_char "`" u = String "010" v.
Proof.
  intros [->|(v & ->)]; [now left|]. right. now exists (remove_char "`" v).
Qed.

Lemma rstrip_LF_head (u : string) :
  u = "" \/ (exists v, u = String "010" v) ->
  rstrip u = "" \/ exists v, rstrip u = String "010" v.
Proof.
  intros [->|(v & ->)]; [now left|]. cbn [rstrip].
  destruct (is_empty (rstrip v) && isspace "010"); [now left|].
  right. now exists (rstrip v).
Qed.

Lemma split_after_ell (w : string) :
  w = "" \/ (exists v, w = String "010" v) ->
  exists rest, split_on "010" ("ell" ++ w) = "ell" :: rest.
Proof.
  intros [->|(v & ->)]; [now exists []|].
  exists (split_on "010" v). reflexivity.
Qed.

(** A fenced block tagged [shell] is not unwrapped: the alternative [sh] of
    the pattern is tried before [shell] and takes the first two letters of
    the tag, so the command that comes back is [ell], whatever block
    follows. *)
Theorem clean_command_shell_tag (body : string) :
  _clean_command ("```shell" ++ LF ++ body) = "ell".
Proof.
  unfold _clean_command.
  change (strip_opening_fence ("```shell" ++ LF ++ body))
    with ("ell" ++ String "010" body).
  change (strip_closing_fence ("ell" ++ String "010" body))
    with ("ell" ++ strip_closing_fence (String "010" body)).
  pose proof (closing_after_LF body) as H.
  apply remove_char_LF_head in H.
  change (remove_char "`" ("ell" ++ strip_closing_fence (String "010" body)))
    with ("ell" ++ remove_char "`" (strip_closing_fence (String "010" body))).
  set (u := remove_char "`" (strip_closing_fence (String "010" body))) in *.
  apply rstrip_LF_head in H.
  assert (E : strip ("ell" ++ u) = "ell" ++ rstrip u).
  { unfold strip. change (lstrip ("ell" ++ u)) with ("ell" ++ u).
    change ("ell" ++ u) with (String "e" (String "l" (String "l" u))).
    now rewrite !rstrip_cons_solid by reflexivity. }
  rewrite E. destruct (split_after_ell (rstrip u) H) as (rest & ->).
  reflexivity.
Qed.

End LLMHandlerFacts.

(** ** More on the executor *)

Module ExecutorFacts.
Import PyStr PyStrMore Py Terminal ExecutorStatus.
Import PyStrFacts PyStrMoreFacts TerminalFacts.

Section WithOS.
Context {os : OS}.

Lemma rstrip_solid_end (s : string) : ends_solid s = true -> rstrip s = s.
Proof.
  intros H. rewrite <- (append_nil_r s) at 1.
  rewrite (rstrip_ends_solid s "" H). apply append_nil_r.
Qed.

Lemma blank_rstrip (s : string) : blank s = true -> rstrip s = "".
Proof.
  induction s as [|a s IH]; [reflexivity|].
  unfold blank. simpl. intros H. apply andb_true_iff in H as [Ha Hs].
  now rewrite (IH Hs), Ha.
Qed.

(** The cases of [set_working_directory]. *)
Lemma set_working_directory_cases (path : string) (m : Machine) :
  (exists directory,
     os_path_expanduser path (world m) = Return directory /\
     set_working_directory path m
     = (Return true, set_executor {| working_directory := directory |} m))
  \/ set_working_directory path m = (Return false, m).
Proof.
  unfold set_working_directory, try_except, bind, ask, modify, ret.
  destruct (os_path_expanduser path (world m)) as [d|e]; simpl; [|now right].
  destruct (os_path_exists d (world m)) as [[|]|e]; simpl; try now right.
  destruct (os_path_isdir d (world m)) as [[|]|e]; simpl; try now right.
  left. now exists d.
Qed.

(** After [set_working_directory], [execute] spawns in the new directory if
    the call succeeded and in the old one if it failed. *)
Theorem execute_after_set_working_directory
    (path command : string) (timeout : Z) (m : Machine) :
  blank command = false ->
  let changed := set_working_directory path m in
  exists cwd,
    calls (snd (execute command timeout (snd changed)))
    = (calls m ++ [CallExecute command timeout;
                   CallSpawn command cwd timeout])%list /\
    ((fst changed = Return true /\
      os_path_expanduser path (world m) = Return cwd)
     \/ (fst changed = Return false /\
         cwd = working_directory (command_executor m))).
Proof.
  intros Hb. cbv zeta.
  pose proof (SafetyFilterMore.nonblank_strip command Hb) as Hs.
  destruct (set_working_directory_cases path m) as [(d & Ed & ->)| ->];
    [exists d | exists (working_directory (command_executor m))];
    rewrite execute_run; cbv zeta; rewrite Hs; cbn [snd fst];
    match goal with
    | |- context [subprocess_run ?c ?d ?t ?w] =>
        destruct (subprocess_run c d t w) as [outcome w']
    end; cbn [snd calls]; (split; [reflexivity|]); [left | right]; now split.
Qed.

(** A blank command is reported as an error line and nothing is spawned. *)
Theorem execute_with_status_blank (command : string) (timeout : Z) (m : Machine) :
  blank command = true ->
  let '(r, m') := execute_with_status command timeout m in
  r = Return "Error: Empty command" /\
  world m' = world m /\
  calls m' = (calls m ++ [CallExecute command timeout])%list.
Proof.
  intros Hb. unfold execute_with_status, bind.
  rewrite execute_run; cbv zeta. rewrite (blank_strip command Hb).
  cbn. now repeat split.
Qed.

(** A timeout is reported as an error line that names the duration. *)
Theorem execute_with_status_timeout (command : string) (timeout : Z) (m : Machine) :
  blank command = false ->
  fst (subprocess_run command (working_directory (command_executor m))
         timeout (world m)) = Raise TimeoutExpired ->
  fst (execute_with_status command timeout m)
  = Return ("Error: Command timed out after " ++ str_of_int timeout ++ " seconds").
Proof.
  intros Hb Hrun. unfold execute_with_status, bind.
  rewrite execute_run; cbv zeta.
  rewrite (SafetyFilterMore.nonblank_strip command Hb).
  destruct (subprocess_run command _ timeout (world m)) as [outcome w'].
  simpl in Hrun. subst outcome. cbn [fst snd ret is_empty negb andb nonempty app].
  assert (E : rstrip ("Command timed out after " ++ str_of_int timeout ++ " seconds")
              = "Command timed out after " ++ str_of_int timeout ++ " seconds").
  { apply rstrip_solid_end.
    rewrite <- append_assoc. now apply ends_solid_app. }
  cbv iota beta. cbn [is_empty negb andb nonempty app].
  unfold join. cbn [String.concat fst]. now rewrite E.
Qed.

(** A process that ends without any output is reported by a fixed sentence
    that depends on its exit status. *)
Theorem execute_with_status_silent
    (command : string) (timeout : Z) (m : Machine) (result : CompletedProcess) :
  blank command = false ->
  fst (subprocess_run command (working_directory (command_executor m))
         timeout (world m)) = Return result ->
  cp_stdout result = "" -> cp_stderr result = "" ->
  fst (execute_with_status command timeout m)
  = Return (if (returncode result =? 0)%Z
            then "Command executed successfully (no output)"
            else "Command failed (no output)").
Proof.
  intros Hb Hrun Ho He. unfold execute_with_status, bind.
  rewrite execute_run; cbv zeta.
  rewrite (SafetyFilterMore.nonblank_strip command Hb).
  destruct (subprocess_run command _ timeout (world m)) as [outcome w'].
  simpl in Hrun. subst outcome. rewrite Ho, He.
  destruct (returncode result =? 0)%Z; reflexivity.
Qed.

(** White space alone on the standard output, with nothing on the error
    stream, gives the empty string: neither the output nor one of the fixed
    sentences is reported. *)
Theorem execute_with_status_blank_output
    (command : string) (timeout : Z) (m : Machine) (result : CompletedProcess) :
  blank command = false ->
  fst (subprocess_run command (working_directory (command_executor m))
         timeout (world m)) = Return result ->
  is_empty (cp_stdout result) = false -> blank (cp_stdout result) = true ->
  cp_stderr result = "" ->
  fst (execute_with_status command timeout m) = Return "".
Proof.
  intros Hb Hrun Hne Hbl He. unfold execute_with_status, bind.
  rewrite execute_run; cbv zeta.
  rewrite (SafetyFilterMore.nonblank_strip command Hb).
  destruct (subprocess_run command _ timeout (world m)) as [outcome w'].
  simpl in Hrun. subst outcome. rewrite He, Hne.
  cbn [fst ret is_empty negb andb nonempty app]. unfold join.
  cbn [String.concat]. now rewrite (blank_rstrip _ Hbl).
Qed.

End WithOS.

(** *** In the small worlds *)

Lemma execute_after_set_working_directory_witness :
  blank "ls" = false /\
  exists cwd,
    calls (snd (execute "ls" 30
                  (snd (@set_working_directory sample_os "/tmp/x" sample_machine))))
    = [CallExecute "ls" 30; CallSpawn "ls" cwd 30] /\
    ((fst (@set_working_directory sample_os "/tmp/x" sample_machine) = Return true /\
      @os_path_expanduser sample_os "/tmp/x" (world sample_machine) = Return cwd)
     \/ (fst (@set_working_directory sample_os "/tmp/x" sample_machine) = Return false /\
         cwd = working_directory (command_executor sample_machine))).
Proof.
  exact (conj eq_refl
           (@execute_after_set_working_directory sample_os "/tmp/x" "ls" 30
              sample_machine eq_refl)).
Defined.

Lemma execute_with_status_blank_witness :
  blank "   " = true /\
  fst (@execute_with_status sample_os "   " 30 sample_machine)
  = Return "Error: Empty command".
Proof.
  split; [reflexivity|].
  pose proof (@execute_with_status_blank sample_os "   " 30 sample_machine eq_refl)
    as H.
  destruct (@execute_with_status sample_os "   " 30 sample_machine) as [r m'].
  exact (proj1 H).
Defined.

Lemma execute_with_status_timeout_witness :
  blank "sleep 60" = false /\
  fst (@execute_with_status (Samples.fixed_os (Raise TimeoutExpired)) "sleep 60" 1
         (Samples.fixed_machine (Raise TimeoutExpired)))
  = Return "Error: Command timed out after 1 seconds".
Proof.
  exact (conj eq_refl
           (@execute_with_status_timeout (Samples.fixed_os (Raise TimeoutExpired))
              "sleep 60" 1 (Samples.fixed_machine (Raise TimeoutExpired))
              eq_refl eq_refl)).
Defined.

Lemma execute_with_status_silent_witness :
  blank "false" = false /\
  fst (@execute_with_status
         (Samples.fixed_os
            (Return {| returncode := 1; cp_stdout := ""; cp_stderr := "" |}))
         "false" 30
         (Samples.fixed_machine
            (Return {| returncode := 1; cp_stdout := ""; cp_stderr := "" |})))
  = Return "Command failed (no output)".
Proof.
  exact (conj eq_refl
           (@execute_with_status_silent
              (Samples.fixed_os
                 (Return {| returncode := 1; cp_stdout := ""; cp_stderr := "" |}))
              "false" 30
              (Samples.fixed_machine
                 (Return {| returncode := 1; cp_stdout := ""; cp_stderr := "" |}))
              {| returncode := 1; cp_stdout := ""; cp_stderr := "" |}
              eq_refl eq_refl eq_refl eq_refl)).
Defined.

Lemma execute_with_status_blank_output_witness :
  blank "echo" = false /\
  fst (@execute_with_status
         (Samples.fixed_os
            (Return {| returncode := 0; cp_stdout := LF; cp_stderr := "" |}))
         "echo" 30
         (Samples.fixed_machine
            (Return {| returncode := 0; cp_stdout := LF; cp_stderr := "" |})))
  = Return "".
Proof.
  exact (conj eq_refl
           (@execute_with_status_blank_output
              (Samples.fixed_os
                 (Return {| returncode := 0; cp_stdout := LF; cp_stderr := "" |}))
              "echo" 30
              (Samples.fixed_machine
                 (Return {| returncode := 0; cp_stdout := LF; cp_stderr := "" |}))
              {| returncode := 0; cp_stdout := LF; cp_stderr := "" |}
              eq_refl eq_refl eq_refl eq_refl eq_refl)).
Defined.

End ExecutorFacts.

(** ** From the input to the log *)

Module PipelineFacts.
Import PyStr PyStrMore Py Terminal ExecutorStatus LLMHandler Pipeline.
Import PyStrFacts PyStrMoreFacts TerminalFacts.

Section WithApi.
Context {os : OS} {api : LLMApi}.

Lemma same_but_text_trans (m1 m2 m3 : Machine) :
  same_but_text m1 m2 -> same_but_text m2 m3 -> same_but_text m1 m3.
Proof.
  intros [B1 P1] [B2 P2]. split; [now apply (same_backend_trans m1 m2)|].
  congruence.
Qed.

Lemma show_same (text tag : string) (m : Machine) :
  same_but_text m (show text tag m).
Proof.
  split; [apply show_backend|].
  unfold show. destruct (output_area (gui m)); reflexivity.
Qed.

Lemma display_only_output (text tag : string) :
  display_only (display_output text tag).
Proof. intros m. exists (show text tag m). split; [reflexivity | apply show_same]. Qed.

Lemma display_only_when (b : bool) (c : M unit) :
  display_only c -> display_only (when_ b c).
Proof.
  intros H. destruct b; [exact H|].
  intros m. exists m. split; [reflexivity|].
  split; [apply same_backend_refl | reflexivity].
Qed.

Lemma display_only_if (b : bool) (c1 c2 : M unit) :
  display_only c1 -> display_only c2 -> display_only (if b then c1 else c2).
Proof. now destruct b. Qed.

Lemma display_only_step {B} (c : M unit) (k : unit -> M B) (m : Machine) :
  display_only c -> exists m', bind c k m = k tt m' /\ same_but_text m m'.
Proof.
  intros H. destruct (H m) as (m' & E & S).
  exists m'. split; [now apply bind_run | exact S].
Qed.

(** What [execute] leaves alone, and what it may spawn. *)
Lemma execute_effect (command : string) (timeout : Z) (m : Machine) :
  exists r m' new,
    execute command timeout m = (Return r, m') /\
    session_logger m' = session_logger m /\ gui m' = gui m /\
    command_executor m' = command_executor m /\
    calls m' = (calls m ++ new)%list /\
    forall c cwd t, In (CallSpawn c cwd t) new -> c = command.
Proof.
  rewrite execute_run. cbv zeta.
  destruct (is_empty (strip command)).
  - eexists _, _, [CallExecute command timeout].
    repeat split. intros c cwd t [H|[]]. discriminate H.
  - destruct (subprocess_run command _ timeout (world m)) as [outcome w'].
    eexists _, _, [CallExecute command timeout; CallSpawn command _ timeout].
    repeat split. intros c cwd t [H|[H|[]]]; [discriminate H|].
    now injection H.
Qed.

Lemma prompt_update_effect (b : bool) (k : string -> string) (m : Machine) :
  exists r m',
    when_ b (wd <- get_working_directory ;; update_prompt (k wd)) m = (r, m') /\
    same_backend m m' /\
    (prompt_label (gui m) <> None -> r = Return tt).
Proof.
  destruct b.
  - unfold when_. rewrite (bind_run get_working_directory _ m m _ eq_refl).
    unfold update_prompt, bind, modify, gets, raise. simpl.
    destruct (prompt_label (gui m)) as [label|].
    + eexists _, _. split; [reflexivity|]. split; [now repeat split | reflexivity].
    + eexists _, _. split; [reflexivity|]. split; [now repeat split | congruence].
  - eexists _, _. split; [reflexivity|].
    split; [apply same_backend_refl | reflexivity].
Qed.

Ltac skip_display H m' S :=
  match goal with
  | |- context [bind ?c ?k ?m] =>
      let E := fresh "E" in
      destruct (display_only_step c k m H) as (m' & E & S); rewrite E; clear E;
      cbv beta
  end.

(** The effect of [_execute_command] on the executor, the log and the
    trace of calls, and when it returns. *)
Lemma execute_command_effect (natural_language command : string) (m : Machine) :
  exists r m' e new,
    _execute_command natural_language command m = (r, m') /\
    command_executor m' = command_executor m /\
    history (session_logger m') = (history (session_logger m) ++ [e])%list /\
    Terminal.natural_language e = natural_language /\
    calls m' = (calls m ++ new)%list /\
    (forall c cwd t, In (CallSpawn c cwd t) new ->
                     fst (SafetyFilter.is_safe c) = true) /\
    (prompt_label (gui m) <> None -> r = Return tt).
Proof.
  unfold _execute_command.
  destruct (SafetyFilter.is_safe command) as [[|] message] eqn:V; cbn [negb].
  - skip_display (display_only_output ("Executing..." ++ LF) "info") m1 S1.
    destruct (execute_effect command 30 m1)
      as ([[success out] err] & m2 & new & E2 & L2 & G2 & X2 & C2 & N2).
    rewrite (bind_run _ _ _ _ _ E2). cbv beta iota zeta.
    skip_display (display_only_when (negb (is_empty out)) _
                    (display_only_output (out ++ LF) "normal")) m3 S3.
    skip_display (display_only_when (negb (is_empty err)) _
                    (display_only_output ("Error: " ++ err ++ LF) "error")) m4 S4.
    skip_display (display_only_when (is_empty out && is_empty err) _
                    (display_only_if success _ _
                       (display_only_output
                          ("Command executed successfully (no output)" ++ LF) "info")
                       (display_only_output
                          ("Error: " ++ "Command failed (no output)" ++ LF) "error")))
                 m5 S5.
    erewrite bind_run by reflexivity.
    match goal with
    | |- context [when_ ?b (bind get_working_directory ?k) ?m6] =>
        destruct (prompt_update_effect b
          (fun wd => let current_dir := basename wd in
                     let current_dir :=
                       if is_empty current_dir then "/" else current_dir in
                     if negb (current_dir =? "/")
                     then "~/" ++ current_dir else current_dir) m6)
          as (r & m7 & E7 & (W7 & X7 & L7 & C7) & R7)
    end.
    cbv zeta in E7. rewrite E7.
    destruct S1 as [(W1 & X1 & L1 & C1) P1], S3 as [(W3 & X3 & L3 & C3) P3],
             S4 as [(W4 & X4 & L4 & C4) P4], S5 as [(W5 & X5 & L5 & C5) P5].
    cbn [set_logger session_logger history calls command_executor gui] in *.
    eexists r, m7, _, new. split; [reflexivity|].
    split; [congruence|].
    split; [rewrite L7, L5, L4, L3, L2, L1; reflexivity|].
    split; [reflexivity|].
    split; [rewrite C7, C5, C4, C3, C2, C1; reflexivity|].
    split.
    + intros c cwd t Hin. rewrite (N2 c cwd t Hin), V. reflexivity.
    + intros Hp. apply R7. rewrite P5, P4, P3, G2, P1. exact Hp.
  - skip_display (display_only_output ("Error: " ++ message ++ LF) "error") m1 S1.
    destruct S1 as [(W1 & X1 & L1 & C1) P1].
    eexists (Return tt), _, _, []. split; [reflexivity|].
    cbn [set_logger session_logger history calls command_executor].
    rewrite L1, X1, C1, app_nil_r. repeat split. intros c cwd t [].
Qed.

Lemma not_builtin (user_input : string) :
  is_builtin user_input = false ->
  existsb (String.eqb (lower_str user_input)) [ "exit"; "quit" ] = false /\
  (lower_str user_input =? "help") = false /\
  (lower_str user_input =? "clear") = false /\
  (lower_str user_input =? "history") = false /\
  (lower_str user_input =? "summary") = false.
Proof.
  unfold is_builtin. cbn [existsb]. intros H.
  repeat (apply orb_false_iff in H as [? H]).
  repeat split; try assumption. apply orb_false_iff. split; [assumption|].
  now apply orb_false_iff.
Qed.

(** [generate_command] returns, and reaches nothing but the world. *)
Lemma generate_effect (llm : LLMHandlerState) (text : string) (timeout : Z)
    (m : Machine) :
  exists g m',
    generate_command llm text timeout m = (Return g, m') /\
    command_executor m' = command_executor m /\
    session_logger m' = session_logger m /\
    gui m' = gui m /\ calls m' = calls m.
Proof.
  unfold generate_command.
  destruct (is_empty text || is_empty (strip text)).
  - now eexists _, _.
  - destruct (chat_completion llm text timeout (world m)) as [[d|content] w];
      now eexists _, _.
Qed.

(** The effect of [process_command] on an input that is not a built-in
    word. *)
Lemma process_command_effect (llm : LLMHandlerState) (bi : Builtins)
    (user_input : string) (m : Machine) :
  is_builtin user_input = false ->
  exists r m' entries new,
    process_command llm bi user_input m = (r, m') /\
    command_executor m' = command_executor m /\
    history (session_logger m') = (history (session_logger m) ++ entries)%list /\
    Forall (fun e => natural_language e = user_input) entries /\
    calls m' = (calls m ++ new)%list /\
    (forall c cwd t, In (CallSpawn c cwd t) new ->
                     fst (SafetyFilter.is_safe c) = true) /\
    (prompt_label (gui m) <> None ->
     r = Return tt /\ exists e, entries = [e]).
Proof.
  intros Hb. destruct (not_builtin user_input Hb) as (B1 & B2 & B3 & B4 & B5).
  unfold process_command. rewrite B1, B2, B3, B4, B5.
  destruct (startswith "!" user_input).
  - cbv zeta.
    skip_display (display_only_output
                    ("Generated command: " ++
                     ("[Direct] " ++
                      strip match user_input with
                            | "" => ""
                            | String _ rest => rest
                            end) ++ LF) "command") m1 S1.
    destruct (execute_command_effect user_input
                (strip match user_input with
                       | "" => ""
                       | String _ rest => rest
                       end) m1)
      as (r & m' & e & new & E & X & L & N & C & V & R).
    destruct S1 as [(W1 & X1 & L1 & C1) P1].
    exists r, m', [e], new. split; [exact E|].
    split; [congruence|]. split; [now rewrite L, L1|].
    split; [now repeat constructor|]. split; [now rewrite C, C1|].
    split; [exact V|].
    intros Hp. split; [apply R; now rewrite P1 | now exists e].
  - skip_display (display_only_output ("Generating command..." ++ LF) "info") m1 S1.
    destruct S1 as [(W1 & X1 & L1 & C1) P1].
    unfold try_except.
    destruct (generate_effect llm user_input 30 m1)
      as (g & m2 & Eg & X2 & L2 & G2 & C2).
    rewrite (bind_run _ _ _ _ _ Eg).
    assert (Failed :
      exists m' e,
        (display_error
           "Failed to generate command. Please try rephrasing your request." ;;
         log_interaction user_input "" "" ""
           (Some "Command generation failed") false) m2 = (Return tt, m') /\
        command_executor m' = command_executor m /\
        history (session_logger m') = (history (session_logger m) ++ [e])%list /\
        natural_language e = user_input /\
        calls m' = calls m).
    { skip_display (display_only_output
                      ("Error: " ++
                       "Failed to generate command. Please try rephrasing your request."
                       ++ LF) "error") m3 S3.
      destruct S3 as [(W3 & X3 & L3 & C3) P3].
      eexists _, _. split; [reflexivity|].
      cbn [set_logger session_logger history calls command_executor].
      rewrite L3, L2, L1. repeat split; congruence. }
    destruct g as [[|a generated]|].
    + destruct Failed as (m' & e & E & X & L & N & C).
      rewrite E. exists (Return tt), m', [e], [].
      rewrite app_nil_r. repeat split; auto. now exists e.
    + skip_display (display_only_output
                      ("Generated command: " ++ String a generated ++ LF)
                      "command") m3 S3.
      destruct S3 as [(W3 & X3 & L3 & C3) P3].
      destruct (execute_command_effect user_input (String a generated) m3)
        as (r & m4 & e & new & E & X & L & N & C & V & R).
      rewrite E. destruct r as [[]|ex].
      * exists (Return tt), m4, [e], new. split; [reflexivity|].
        split; [congruence|]. split; [now rewrite L, L3, L2, L1|].
        split; [now repeat constructor|].
        split; [now rewrite C, C3, C2, C1|]. split; [exact V|].
        intros _. split; [reflexivity | now exists e].
      * cbv zeta.
        skip_display (display_only_output
                        ("Error: " ++
                         ("Error processing command: " ++ str_of_exn ex) ++ LF)
                        "error") m5 S5.
        destruct S5 as [(W5 & X5 & L5 & C5) P5].
        eexists (Return tt), _, [e; _], new. split; [reflexivity|].
        cbn [set_logger session_logger history calls command_executor].
        split; [congruence|].
        split; [rewrite L5, L, L3, L2, L1, <- app_assoc; reflexivity|].
        split; [now repeat constructor|].
        split; [now rewrite C5, C, C3, C2, C1|]. split; [exact V|].
        intros Hp. exfalso.
        assert (Raise ex = Return tt) by (apply R; now rewrite P3, G2, P1).
        discriminate.
    + destruct Failed as (m' & e & E & X & L & N & C).
      rewrite E. exists (Return tt), m', [e], [].
      rewrite app_nil_r. repeat split; auto. now exists e.
Qed.

(** Whatever the input and whatever the service answers, a process is
    spawned for a command only if [is_safe] allows that command. *)
Theorem process_command_spawns_validated (llm : LLMHandlerState) (bi : Builtins)
    (user_input : string) (m : Machine) :
  is_builtin user_input = false ->
  exists new,
    calls (snd (process_command llm bi user_input m)) = (calls m ++ new)%list /\
    forall c cwd t, In (CallSpawn c cwd t) new ->
                    fst (SafetyFilter.is_safe c) = true.
Proof.
  intros Hb.
  destruct (process_command_effect llm bi user_input m Hb)
    as (r & m' & entries & new & E & _ & _ & _ & C & V & _).
  rewrite E. now exists new.
Qed.

(** With its window in place, [process_command] returns and leaves exactly
    one entry in the log for every input that is not a built-in word. *)
Theorem process_command_logs_once (llm : LLMHandlerState) (bi : Builtins)
    (user_input : string) (m : Machine) :
  is_builtin user_input = false -> prompt_label (gui m) <> None ->
  fst (process_command llm bi user_input m) = Return tt /\
  exists e,
    history (session_logger (snd (process_command llm bi user_input m)))
    = (history (session_logger m) ++ [e])%list /\
    natural_language e = user_input.
Proof.
  intros Hb Hp.
  destruct (process_command_effect llm bi user_input m Hb)
    as (r & m' & entries & new & E & _ & L & N & _ & _ & R).
  destruct (R Hp) as (-> & e & ->). rewrite E. split; [reflexivity|].
  exists e. split; [exact L|]. now inversion N.
Qed.

(** No input changes the directory of the executor: a [cd] typed or
    generated has no effect on the commands that follow. *)
Theorem process_command_keeps_directory (llm : LLMHandlerState) (bi : Builtins)
    (user_input : string) (m : Machine) :
  is_builtin user_input = false ->
  command_executor (snd (process_command llm bi user_input m))
  = command_executor m.
Proof.
  intros Hb.
  destruct (process_command_effect llm bi user_input m Hb)
    as (r & m' & entries & new & E & X & _).
  now rewrite E.
Qed.

(** When the service fails, nothing is executed and the log gets one entry
    without command, whose error is [Command generation failed]. *)
Theorem process_command_generation_failure (llm : LLMHandlerState)
    (bi : Builtins) (user_input description : string) (m : Machine) :
  is_builtin user_input = false -> startswith "!" user_input = false ->
  blank user_input = false ->
  fst (chat_completion llm user_input 30 (world m)) = inl description ->
  let m' := snd (process_command llm bi user_input m) in
  exists e,
    history (session_logger m') = (history (session_logger m) ++ [e])%list /\
    generated_command e = "" /\
    error e = Some "Command generation failed" /\
    blocked e = false /\
    calls m' = calls m.
Proof.
  intros Hb Hd Hn Hf. cbv zeta.
  destruct (not_builtin user_input Hb) as (B1 & B2 & B3 & B4 & B5).
  unfold process_command. rewrite B1, B2, B3, B4, B5, Hd.
  skip_display (display_only_output ("Generating command..." ++ LF) "info") m1 S1.
  destruct S1 as [(W1 & X1 & L1 & C1) P1].
  unfold try_except.
  assert (Eg : exists m2,
            generate_command llm user_input 30 m1 = (Return None, m2) /\
            session_logger m2 = session_logger m1 /\ calls m2 = calls m1).
  { unfold generate_command.
    assert (G : is_empty user_input || is_empty (strip user_input) = false).
    { rewrite (SafetyFilterMore.nonblank_strip user_input Hn).
      destruct user_input; [discriminate | reflexivity]. }
    rewrite G, W1.
    destruct (chat_completion llm user_input 30 (world m)) as [[d|content] w];
      [|discriminate].
    now eexists. }
  destruct Eg as (m2 & Eg & L2 & C2).
  rewrite (bind_run _ _ _ _ _ Eg). cbv beta iota.
  skip_display (display_only_output
                  ("Error: " ++
                   "Failed to generate command. Please try rephrasing your request."
                   ++ LF) "error") m3 S3.
  destruct S3 as [(W3 & X3 & L3 & C3) P3].
  eexists. cbn. rewrite L3, L2, L1, C3, C2, C1. repeat split.
Qed.

(** [generate_command] never raises.  For a blank instruction it answers
    [None] and leaves everything as it was, the service included; a command
    that it does return holds no back-tick and no line feed and has no white
    space around it. *)
Theorem generate_command_result (llm : LLMHandlerState) (text : string)
    (timeout : Z) (m : Machine) :
  let '(r, m') := generate_command llm text timeout m in
  exists g,
    r = Return g /\
    (blank text = true -> g = None /\ m' = m) /\
    (forall command, g = Some command ->
       all_chars not_backtick command = true /\
       one_line command = true /\ strip command = command).
Proof.
  unfold generate_command.
  destruct (is_empty text || is_empty (strip text)) eqn:G.
  - exists None. repeat split; discriminate.
  - destruct (chat_completion llm text timeout (world m)) as [[d|content] w].
    + exists None. split; [reflexivity|]. split; [|discriminate].
      intros Hb. rewrite (blank_strip text Hb) in G.
      simpl in G. now rewrite orb_true_r in G.
    + exists (Some (_clean_command (strip content))).
      split; [reflexivity|]. split.
      * intros Hb. rewrite (blank_strip text Hb) in G.
        simpl in G. now rewrite orb_true_r in G.
      * intros command [= <-]. apply LLMHandlerFacts.clean_shape.
Qed.

End WithApi.

(** *** In the small world *)

Import Samples.

Lemma generate_command_result_witness :
  blank "  " = true /\
  @generate_command sample_os sample_api sample_llm "  " 30 sample_machine
  = (Return None, sample_machine) /\
  exists command,
    fst (@generate_command sample_os sample_api sample_llm "list files" 30
           sample_machine) = Return (Some command) /\
    one_line command = true.
Proof.
  pose proof (@generate_command_result sample_os sample_api sample_llm "  " 30
                sample_machine) as H1.
  pose proof (@generate_command_result sample_os sample_api sample_llm
                "list files" 30 sample_machine) as H2.
  destruct (@generate_command sample_os sample_api sample_llm "  " 30 sample_machine)
    as [r1 m1].
  destruct (@generate_command sample_os sample_api sample_llm "list files" 30
              sample_machine) as [r2 m2] eqn:E2.
  destruct H1 as (g1 & -> & B1 & _). destruct (B1 eq_refl) as [-> ->].
  destruct H2 as (g2 & -> & _ & S2).
  split; [reflexivity|]. split; [reflexivity|].
  injection E2 as <- _.
  exists "ls -la". split; [reflexivity|].
  exact (proj1 (proj2 (S2 "ls -la" eq_refl))).
Defined.

Lemma process_command_spawns_validated_witness :
  is_builtin "!ls /bin" = false /\
  exists new,
    calls (snd (@process_command sample_os sample_api sample_llm sample_builtins
                  "!ls /bin" sample_machine))
    = (calls sample_machine ++ new)%list /\
    forall c cwd t, In (CallSpawn c cwd t) new ->
                    fst (SafetyFilter.is_safe c) = true.
Proof.
  exact (conj eq_refl
           (@process_command_spawns_validated sample_os sample_api sample_llm
              sample_builtins "!ls /bin" sample_machine eq_refl)).
Defined.

Lemma process_command_logs_once_witness :
  is_builtin "list files" = false /\
  prompt_label (gui sample_machine) <> None /\
  fst (@process_command sample_os sample_api sample_llm sample_builtins
         "list files" sample_machine) = Return tt /\
  exists e,
    history (session_logger
               (snd (@process_command sample_os sample_api sample_llm
                       sample_builtins "list files" sample_machine)))
    = (history (session_logger sample_machine) ++ [e])%list /\
    natural_language e = "list files".
Proof.
  assert (Hp : prompt_label (gui sample_machine) <> None) by discriminate.
  exact (conj eq_refl (conj Hp
           (@process_command_logs_once sample_os sample_api sample_llm
              sample_builtins "list files" sample_machine eq_refl Hp))).
Defined.

Lemma process_command_keeps_directory_witness :
  is_builtin "!cd /tmp" = false /\
  command_executor
    (snd (@process_command sample_os sample_api sample_llm sample_builtins
            "!cd /tmp" sample_machine))
  = command_executor sample_machine.
Proof.
  exact (conj eq_refl
           (@process_command_keeps_directory sample_os sample_api sample_llm
              sample_builtins "!cd /tmp" sample_machine eq_refl)).
Defined.

Lemma process_command_generation_failure_witness :
  is_builtin "fail" = false /\ startswith "!" "fail" = false /\
  blank "fail" = false /\
  fst (@chat_completion sample_os sample_api sample_llm "fail" 30
         (world sample_machine)) = inl "Connection error." /\
  exists e,
    history (session_logger
               (snd (@process_command sample_os sample_api sample_llm
                       sample_builtins "fail" sample_machine)))
    = (history (session_logger sample_machine) ++ [e])%list /\
    generated_command e = "" /\
    error e = Some "Command generation failed" /\
    blocked e = false /\
    calls (snd (@process_command sample_os sample_api sample_llm
                  sample_builtins "fail" sample_machine))
    = calls sample_machine.
Proof.
  exact (conj eq_refl (conj eq_refl (conj eq_refl (conj eq_refl
           (@process_command_generation_failure sample_os sample_api sample_llm
              sample_builtins "fail" "Connection error." sample_machine
              eq_refl eq_refl eq_refl eq_refl))))).
Defined.

End PipelineFacts.
